(** * query_params_project: the query compiler of [services/query_parse.py]
    and the serializer registry of [services/serialization.py].

    The Python sources build SQLAlchemy statements from a nested query
    specification ([ActionTree]).  The development embeds

    - the serializer registry ([__serializers__], [get_serializer],
      [get_prop_serializer], [BaseSerializer.get_db_field],
      [BaseSerializer.get_serializer_field]);
    - the statement builder as a small syntax of SQL expressions and
      selectables, with one function per SQLAlchemy method the sources call;
    - [_resolve_relationships], [_relation_select] and [_json_query], in an
      exception monad and with the mutation of the specification made
      explicit (every compiler returns the specification as it leaves it).

    Python dictionaries that are only looked up are [gmap]s; [relations] of a
    specification is iterated in insertion order and is an association
    list. *)

From stdpp Require Import base option list strings gmap.
From Stdlib Require Import ZArith Lia.

Set Warnings "-register-all".

Local Open Scope string_scope.
Local Open Scope list_scope.

(** ** Exceptions *)

(** The exceptions the two modules can raise.  [RecursionBound] is not a
    Python exception: it is returned when the recursion bound of the
    embedding of [_relation_select] is used up, which [_json_query] rules
    out by construction (see [relation_select_bound]). *)
Inductive error : Type :=
  | UnknownDbField (db_field : string)
  | UnknownSerializerField (field_alias : string)
  | KeyError (key : string)
  | AttributeError (attribute : string)
  | TypeError
  | ValueError
  | SQLGenerationException (message : string)
  | RecursionBound.

Inductive result (A : Type) : Type :=
  | Ok (a : A)
  | Raise (e : error).
Arguments Ok {A} a.
Arguments Raise {A} e.

Definition bind {A B : Type} (m : result A) (k : A -> result B) : result B :=
  match m with
  | Ok a => k a
  | Raise e => Raise e
  end.

Notation "'let!' x ':=' m 'in' k" := (bind m (fun x => k))
  (at level 10, x pattern, m at level 100, k at level 200).

Definition is_ok {A : Type} (m : result A) : bool :=
  match m with Ok _ => true | Raise _ => false end.

(** ** Schema: what SQLAlchemy's [inspect] reports about a mapped class *)

(** A mapped class is identified by its table name; a column by its table
    and its name.  [Model.attr] and the [Column] objects of a join condition
    are compared by SQLAlchemy through the identity of the column. *)
Definition model := string.

Record column : Type := Column { col_table : string; col_name : string }.

Global Instance column_eq_dec : EqDecision column.
Proof. solve_decision. Defined.

(** [RelationshipDirection].  SQLAlchemy's enumeration has the first three
    members; [OTHERDIRECTION printed] stands for any other value, as
    the [case _] of [_resolve_relationships] provides for, with [printed]
    what an f-string shows of it. *)
Inductive RelationshipDirection : Type :=
  | ONETOMANY
  | MANYTOONE
  | MANYTOMANY
  | OTHERDIRECTION (printed : string).

Global Instance direction_eq_dec : EqDecision RelationshipDirection.
Proof. solve_decision. Defined.

(** [primaryjoin] and [secondaryjoin] are binary comparisons [left == right]
    ([secondaryjoin] is [None] outside many-to-many relationships);
    [rel_entity] is [relationship.entity.entity], the mapped class the
    relationship leads to. *)
Record Relationship : Type := {
  direction : RelationshipDirection;
  primaryjoin : column * column;
  secondaryjoin : option (column * column);
  rel_entity : model
}.

Record ModelInspection : Type := {
  relationships : gmap string Relationship;
  columns : list column
}.

(** ** services/serialization.py *)

Record SerializerField : Type := {
  field : string;
  alias : string
}.

Global Instance SerializerField_eq_dec : EqDecision SerializerField.
Proof. solve_decision. Defined.

(** [SerializerField.__init__]: [self.alias = alias or field]. *)
Definition new_SerializerField (f : string) (a : option string) : SerializerField :=
  {| field := f;
     alias := match a with
              | Some s => if decide (s = "") then f else s
              | None => f
              end |}.

(** A subclass of [BaseSerializer]: its class attributes.  Of the mapped
    class [cls.model] the serializer reads the identity, [ser_model], and the
    attributes the class defines: [model_dict] lists the keys of
    [cls.model.__dict__]. *)
Record BaseSerializer : Type := {
  ser_model : model;
  model_dict : list string;
  fields : list SerializerField
}.

(** The process-wide state the two modules read: the registry
    [__serializers__] and SQLAlchemy's [inspect]. *)
Record World : Type := {
  serializers : gmap model BaseSerializer;
  inspect : model -> ModelInspection
}.

(** [BaseSerializer.__init_subclass__]: [__serializers__[cls.model] = cls]. *)
Definition init_subclass (cls : BaseSerializer) (w : World) : World :=
  {| serializers := <[ser_model cls := cls]> (serializers w);
     inspect := inspect w |}.

(** [get_serializer]: [__serializers__.get(_type, None)]. *)
Definition get_serializer (w : World) (_type : model) : option BaseSerializer :=
  serializers w !! _type.

(** Method calls on a value that may be [None]. *)
Definition deref {A : Type} (attribute : string) (o : option A) : result A :=
  match o with
  | Some a => Ok a
  | None => Raise (AttributeError attribute)
  end.

Definition get_model_inspection (w : World) (cls : BaseSerializer) : ModelInspection :=
  inspect w (ser_model cls).

(** [d[key]] on a dictionary. *)
Definition getitem {A : Type} (d : gmap string A) (key : string) : result A :=
  match d !! key with
  | Some a => Ok a
  | None => Raise (KeyError key)
  end.

(** [get_prop_serializer]. *)
Definition get_prop_serializer (w : World) (_type : model) (prop : string)
  : result (option BaseSerializer) :=
  let! serializer := deref "get_model_inspection" (get_serializer w _type) in
  let _mi := get_model_inspection w serializer in
  let! r := getitem (relationships _mi) prop in
  Ok (get_serializer w (rel_entity r)).

(** [BaseSerializer.get_db_field]: the mapped attribute
    [cls.model.__dict__[field]] of the first serializer field stored under
    that name; the subscript is a [KeyError] when the mapped class defines
    no attribute of that name. *)
Fixpoint find_db_field (fs : list SerializerField) (db_field : string) : option SerializerField :=
  match fs with
  | [] => None
  | f :: fs' => if decide (field f = db_field) then Some f else find_db_field fs' db_field
  end.

Definition get_db_field (cls : BaseSerializer) (db_field : string) : result column :=
  match find_db_field (fields cls) db_field with
  | Some f =>
      if bool_decide (field f ∈ model_dict cls)
      then Ok (Column (ser_model cls) (field f))
      else Raise (KeyError (field f))
  | None => Raise (UnknownDbField db_field)
  end.

(** [BaseSerializer.get_serializer_field]. *)
Fixpoint find_alias (fs : list SerializerField) (field_alias : string) : option SerializerField :=
  match fs with
  | [] => None
  | f :: fs' => if decide (alias f = field_alias) then Some f else find_alias fs' field_alias
  end.

Definition get_serializer_field (cls : BaseSerializer) (field_alias : string)
  : result SerializerField :=
  match find_alias (fields cls) field_alias with
  | Some f => Ok f
  | None => Raise (UnknownSerializerField field_alias)
  end.

(** ** The query specification (services/query_parser) *)

(** Modelled from the spec: the classes [NestedField], [FilterAction],
    [SortAction], [SortOrder] and [ActionTree] of [services/query_parser]
    are not among the sources.  A [FieldPath] is the sequence of name
    segments of a field reference; a path of one segment addresses a field
    of the current entity (the plain name the compiler hands to
    [get_serializer_field] and [get_db_field]) and a path of two or more
    segments is a [NestedField]. *)
Definition FieldPath := list string.

(** [isinstance(field, NestedField)]. *)
Definition is_nested (p : FieldPath) : bool :=
  match p with
  | _ :: _ :: _ => true
  | _ => false
  end.

(** [NestedField.shift_down]: the path without its leading segment. *)
Definition shift_down (p : FieldPath) : FieldPath := tail p.

(** [field.fields[0]]. *)
Definition first_segment (p : FieldPath) : string := hd "" p.

(** The name a path of one segment stands for, where the compiler uses the
    field as a plain string. *)
Definition plain_name (p : FieldPath) : option string :=
  match p with
  | [name] => Some name
  | _ => None
  end.

Inductive value : Type :=
  | VInt (n : Z)
  | VStr (s : string).

(** Modelled from the spec: [FilterAction], the FilterSpec of a field path,
    an operator and a value.  [operator] is a binary callable in the
    sources; it is kept by name. *)
Record FilterAction : Type := {
  flt_field : FieldPath;
  operator : string;
  flt_value : value
}.

Inductive SortOrder : Type := ASC | DESC.

(** Modelled from the spec: [SortAction], the SortSpec of a field path and
    an order. *)
Record SortAction : Type := {
  sort_field : FieldPath;
  order : SortOrder
}.

(** Modelled from the spec: [ActionTree], the query specification;
    [relations] is a Python dictionary, kept in insertion order. *)
Inductive ActionTree : Type := mkActionTree {
  select : option (list string);
  filters : list FilterAction;
  sort : option SortAction;
  relations : list (string * ActionTree);
  offset : option Z;
  limit : option Z
}.

(** [ActionTree()]: the empty specification.  Both places that create one
    assign [select] right away. *)
Definition new_ActionTree (sel : option (list string)) : ActionTree :=
  mkActionTree sel [] None [] None None.

Definition append_filter (t : ActionTree) (f : FilterAction) : ActionTree :=
  mkActionTree (select t) (filters t ++ [f]) (sort t) (relations t) (offset t) (limit t).

Definition set_sort (t : ActionTree) (s : SortAction) : ActionTree :=
  mkActionTree (select t) (filters t) (Some s) (relations t) (offset t) (limit t).

Definition set_relations (t : ActionTree) (rs : list (string * ActionTree)) : ActionTree :=
  mkActionTree (select t) (filters t) (sort t) rs (offset t) (limit t).

(** *** Python dictionaries in insertion order *)

Fixpoint dict_get {A : Type} (d : list (string * A)) (key : string) : option A :=
  match d with
  | [] => None
  | (k, a) :: d' => if decide (k = key) then Some a else dict_get d' key
  end.

(** [d[key] = a]: an existing key keeps its place, a new one goes last. *)
Fixpoint dict_set {A : Type} (d : list (string * A)) (key : string) (a : A)
  : list (string * A) :=
  match d with
  | [] => [(key, a)]
  | (k, b) :: d' =>
      if decide (k = key) then (k, a) :: d' else (k, b) :: dict_set d' key a
  end.

(** ** The statements SQLAlchemy builds *)

(** SQL expressions.  Inside the statement of a relation there is one
    subquery [q], whose columns [q.c[name]] are [SubqueryCol name]; a column
    of the fragment joined for a relation is named by the relation,
    [CteCol relation_name name]. *)
Inductive expr : Type :=
  | Text (s : string)                         (* a Python [str] argument *)
  | Null                                      (* [None] *)
  | Col (c : column)                          (* [Model.attr], a [Column] *)
  | Entity (m : model)                        (* [select(Model)] *)
  | SubqueryCol (name : string)               (* [q.c[name]] *)
  | CteCol (relation_name name : string)      (* [_rel_cte.c.name] *)
  | Func (name : string) (args : list expr)   (* [func.name] applied to args *)
  | Case (when_ then_ else_ : expr)           (* [case((when, then), else_=..)] *)
  | IsNotNull (e : expr)                      (* [e.is_not(None)] *)
  | Eq (l r : expr)                           (* [l == r] *)
  | Operator (op : string) (l : expr) (v : value)
  | And (es : list expr)                      (* [and_] applied to es *)
  | Label (e : expr) (name : string)
  | Asc (e : expr)
  | Desc (e : expr)
  | Concat (l r : expr).

Record Join (T : Type) : Type := {
  target : T;
  onclause : expr;
  isouter : bool
}.
Arguments target {T} _.
Arguments onclause {T} _.
Arguments isouter {T} _.

Record Select (T : Type) : Type := {
  raw_columns : list expr;
  from_obj : option T;
  joins : list (Join T);
  where_criteria : list expr;
  order_by_clauses : list expr;
  offset_clause : option Z;
  limit_clause : option Z;
  group_by_clauses : list expr
}.
Arguments raw_columns {T} _.
Arguments from_obj {T} _.
Arguments joins {T} _.
Arguments where_criteria {T} _.
Arguments order_by_clauses {T} _.
Arguments offset_clause {T} _.
Arguments limit_clause {T} _.
Arguments group_by_clauses {T} _.

Inductive selectable : Type :=
  | Table (name : string)
  | Subquery (s : Select selectable)
  | Cte (s : Select selectable) (prefixes : list string).

Definition statement := Select selectable.

Module Sql.
Definition select (cols : list expr) : statement :=
  {| raw_columns := cols; from_obj := None; joins := []; where_criteria := [];
     order_by_clauses := []; offset_clause := None; limit_clause := None;
     group_by_clauses := [] |}.

Definition select_from (q : statement) (t : selectable) : statement :=
  {| raw_columns := raw_columns q; from_obj := Some t; joins := joins q;
     where_criteria := where_criteria q; order_by_clauses := order_by_clauses q;
     offset_clause := offset_clause q; limit_clause := limit_clause q;
     group_by_clauses := group_by_clauses q |}.

Definition join (q : statement) (t : selectable) (on : expr) (outer : bool) : statement :=
  {| raw_columns := raw_columns q; from_obj := from_obj q;
     joins := joins q ++ [{| target := t; onclause := on; isouter := outer |}];
     where_criteria := where_criteria q; order_by_clauses := order_by_clauses q;
     offset_clause := offset_clause q; limit_clause := limit_clause q;
     group_by_clauses := group_by_clauses q |}.

Definition filter (q : statement) (criteria : list expr) : statement :=
  {| raw_columns := raw_columns q; from_obj := from_obj q; joins := joins q;
     where_criteria := where_criteria q ++ criteria;
     order_by_clauses := order_by_clauses q;
     offset_clause := offset_clause q; limit_clause := limit_clause q;
     group_by_clauses := group_by_clauses q |}.

Definition order_by (q : statement) (e : expr) : statement :=
  {| raw_columns := raw_columns q; from_obj := from_obj q; joins := joins q;
     where_criteria := where_criteria q;
     order_by_clauses := order_by_clauses q ++ [e];
     offset_clause := offset_clause q; limit_clause := limit_clause q;
     group_by_clauses := group_by_clauses q |}.

Definition offset (q : statement) (n : Z) : statement :=
  {| raw_columns := raw_columns q; from_obj := from_obj q; joins := joins q;
     where_criteria := where_criteria q; order_by_clauses := order_by_clauses q;
     offset_clause := Some n; limit_clause := limit_clause q;
     group_by_clauses := group_by_clauses q |}.

Definition limit (q : statement) (n : Z) : statement :=
  {| raw_columns := raw_columns q; from_obj := from_obj q; joins := joins q;
     where_criteria := where_criteria q; order_by_clauses := order_by_clauses q;
     offset_clause := offset_clause q; limit_clause := Some n;
     group_by_clauses := group_by_clauses q |}.

Definition group_by (q : statement) (e : expr) : statement :=
  {| raw_columns := raw_columns q; from_obj := from_obj q; joins := joins q;
     where_criteria := where_criteria q; order_by_clauses := order_by_clauses q;
     offset_clause := offset_clause q; limit_clause := limit_clause q;
     group_by_clauses := group_by_clauses q ++ [e] |}.
End Sql.

(** ** services/query_parse.py *)

Definition EXCLUDE_COLUMN_PREFIX : string := "!".
Definition WILDCARD : string := "*".

(** [s.startswith(prefix)] and [s[1:]]. *)
Definition startswith (s prefix : string) : bool := String.prefix prefix s.

Definition from_index_1 (s : string) : string :=
  match s with
  | EmptyString => EmptyString
  | String _ rest => rest
  end.

Fixpoint traverse {A B : Type} (f : A -> result B) (l : list A) : result (list B) :=
  match l with
  | [] => Ok []
  | a :: l' =>
      let! b := f a in
      let! bs := traverse f l' in
      Ok (b :: bs)
  end.

(** [l.remove(x)]: the first occurrence goes, [ValueError] when there is
    none.  Python compares [SerializerField] objects by identity; the object
    both compilers remove is the first of [serializer.fields] with its
    alias, which is also the first with its alias and its field. *)
Fixpoint list_remove (x : SerializerField) (l : list SerializerField)
  : result (list SerializerField) :=
  match l with
  | [] => Raise ValueError
  | y :: l' =>
      if decide (y = x) then Ok l'
      else let! r := list_remove x l' in Ok (y :: r)
  end.

(** The objects [_relation_select] collects in the set [fld]: mapped
    attributes [Model.attr], as [get_db_field] returns them, and the [Column]
    of a join condition.  An attribute and the column it is mapped to are
    two objects, and a Python [set] keeps both. *)
Inductive selected : Type :=
  | Attribute (c : column)
  | TableColumn (c : column).

Global Instance selected_eq_dec : EqDecision selected.
Proof. solve_decision. Defined.

(** Both are rendered as the column in the statement. *)
Definition selected_column (x : selected) : column :=
  match x with
  | Attribute c => c
  | TableColumn c => c
  end.

Definition selected_expr (x : selected) : expr := Col (selected_column x).

(** [fld.add(x)] on a Python [set].  The iteration order of a set is not
    specified; the embedding keeps insertion order. *)
Definition set_add (x : selected) (fld : list selected) : list selected :=
  if bool_decide (x ∈ fld) then fld else fld ++ [x].

Definition set_of (xs : list selected) : list selected :=
  fold_left (fun fld x => set_add x fld) xs [].

(** The comprehension both compilers use for all selectable fields:
    [[_field for _field in serializer.fields
      if _field.field not in _model_inspect.relationships]]. *)
Definition non_relation_fields (w : World) (serializer : BaseSerializer)
  : list SerializerField :=
  List.filter
    (fun _field =>
       bool_decide (relationships (get_model_inspection w serializer) !! field _field = None))
    (fields serializer).

(** The exclusion loop, the same in [_json_query] (lines 90-97) and in
    [_relation_select] (lines 326-335). *)
Fixpoint exclude_columns (w : World) (serializer : BaseSerializer)
    (sel : list string) (_field_to_select : list SerializerField)
  : result (list SerializerField) :=
  match sel with
  | [] => Ok _field_to_select
  | _field :: rest =>
      if startswith _field EXCLUDE_COLUMN_PREFIX then
        let! excluded := get_serializer_field serializer (from_index_1 _field) in
        let! remaining := list_remove excluded (non_relation_fields w serializer) in
        exclude_columns w serializer rest remaining
      else exclude_columns w serializer rest _field_to_select
  end.

(** [get_serializer_field] and [get_db_field] applied to the field of a
    filter or of a sort. *)
Definition path_text (p : FieldPath) : string := String.concat "." p.

Definition get_serializer_field_of (cls : BaseSerializer) (p : FieldPath)
  : result SerializerField :=
  match plain_name p with
  | Some name => get_serializer_field cls name
  | None => Raise (UnknownSerializerField (path_text p))
  end.

Definition get_db_field_of (cls : BaseSerializer) (p : FieldPath) : result column :=
  match plain_name p with
  | Some name => get_db_field cls name
  | None => Raise (UnknownDbField (path_text p))
  end.

(** The branch both filter loops take on a [NestedField]: find or create the
    specification of the relation and append the shifted filter to it.
    [synthesized] is the [select] given to a created specification. *)
Definition push_down (synthesized : option (list string))
    (rels : list (string * ActionTree)) (flt_item : FilterAction)
  : list (string * ActionTree) :=
  let name := first_segment (flt_field flt_item) in
  let rel_action :=
    match dict_get rels name with
    | Some t => t
    | None => new_ActionTree synthesized
    end in
  dict_set rels name
    (append_filter rel_action
       {| flt_field := shift_down (flt_field flt_item);
          operator := operator flt_item;
          flt_value := flt_value flt_item |}).

(** The state of a filter loop: [relations] of the specification, the
    criteria collected so far and [_inner_cte]. *)
Definition filter_state : Type :=
  (list (string * ActionTree) * list expr * list string)%type.

(** [_json_query], lines 104-131. *)
Fixpoint json_query_filters (serializer : BaseSerializer)
    (flts : list FilterAction) (st : filter_state) : result filter_state :=
  match flts with
  | [] => Ok st
  | flt_item :: rest =>
      let '(rels, _filters, _inner_cte) := st in
      if is_nested (flt_field flt_item) then
        json_query_filters serializer rest
          (push_down None rels flt_item, _filters,
           _inner_cte ++ [first_segment (flt_field flt_item)])
      else
        let! sf := get_serializer_field_of serializer (flt_field flt_item) in
        let! c := get_db_field serializer (field sf) in
        json_query_filters serializer rest
          (rels,
           _filters ++ [Operator (operator flt_item) (Col c) (flt_value flt_item)],
           _inner_cte)
  end.

(** The keys of [q.c] for a subquery of the statement [q]. *)
Definition column_keys (w : World) (q : statement) : list string :=
  flat_map
    (fun e =>
       match e with
       | Col c => [col_name c]
       | Entity m => List.map col_name (columns (inspect w m))
       | Label _ name => [name]
       | _ => []
       end)
    (raw_columns q).

(** [q.c[name]] and [q.c.name]. *)
Definition subquery_c (w : World) (q : statement) (name : string) : result expr :=
  if bool_decide (name ∈ column_keys w q) then Ok (SubqueryCol name)
  else Raise (KeyError name).

Definition subquery_c_attr (w : World) (q : statement) (name : string) : result expr :=
  if bool_decide (name ∈ column_keys w q) then Ok (SubqueryCol name)
  else Raise (AttributeError name).

(** [_relation_select], lines 378-409. *)
Fixpoint relation_select_filters (w : World) (serializer : BaseSerializer)
    (q : statement) (flts : list FilterAction) (st : filter_state)
  : result filter_state :=
  match flts with
  | [] => Ok st
  | flt_item :: rest =>
      let '(rels, filter_items, _inner_cte) := st in
      if is_nested (flt_field flt_item) then
        relation_select_filters w serializer q rest
          (push_down (Some ["id"]) rels flt_item, filter_items,
           _inner_cte ++ [first_segment (flt_field flt_item)])
      else
        let! sf := get_serializer_field_of serializer (flt_field flt_item) in
        let! c := subquery_c w q (field sf) in
        relation_select_filters w serializer q rest
          (rels,
           filter_items ++ [Operator (operator flt_item) c (flt_value flt_item)],
           _inner_cte)
  end.

(** [_resolve_relationships], lines 43-64: the JSON value of an embedded
    relation. *)
Definition relation_value (relation_name : string) (d : RelationshipDirection)
  : result expr :=
  let obj := CteCol relation_name "obj" in
  let! (else_case, agg_fn) :=
    match d with
    | ONETOMANY => Ok (Func "json" [Text "[]"], Func "json" [obj])
    | MANYTOONE => Ok (Null, Func "json_extract" [obj; Text "$[0]"])
    | MANYTOMANY => Ok (Func "json" [Text "[]"], Func "json" [obj])
    | OTHERDIRECTION printed =>
        Raise (SQLGenerationException ("Unsupported relation type: " +:+ printed))
    end in
  Ok (Case (IsNotNull (CteCol relation_name "id")) agg_fn else_case).

(** What [_relation_select] is to [_resolve_relationships]: it compiles the
    specification of a relation and hands it back as it has left it. *)
Definition relation_compiler : Type :=
  ActionTree -> option BaseSerializer -> model -> Relationship ->
  result (selectable * ActionTree).

(** An entry of [_joins]. *)
Definition relation_join : Type := (string * selectable * expr)%type.

(** [_resolve_relationships].  The third component of the result is
    [action.relations] after the loop. *)
Fixpoint _resolve_relationships (w : World) (compile : relation_compiler)
    (rels : list (string * ActionTree)) (serializer : BaseSerializer)
    (id_field : expr)
  : result (list expr * list relation_join * list (string * ActionTree)) :=
  match rels with
  | [] => Ok ([], [], [])
  | (relation_name, relation_action_tree) :: rest =>
      let _model_inspect := get_model_inspection w serializer in
      let! relation_src_name := get_serializer_field serializer relation_name in
      let! sql_relation :=
        getitem (relationships _model_inspect) (field relation_src_name) in
      let! rel_serializer :=
        get_prop_serializer w (ser_model serializer) (field relation_src_name) in
      let! (_rel_cte, compiled_tree) :=
        compile relation_action_tree rel_serializer (ser_model serializer) sql_relation in
      let! _fields :=
        match select relation_action_tree with
        | Some _ =>
            let! v := relation_value relation_name (direction sql_relation) in
            Ok [Text relation_name; v]
        | None => Ok []
        end in
      let! (rest_fields, rest_joins, rest_rels) :=
        _resolve_relationships w compile rest serializer id_field in
      Ok (_fields ++ rest_fields,
          (relation_name, _rel_cte, Eq id_field (CteCol relation_name "id")) :: rest_joins,
          (relation_name, compiled_tree) :: rest_rels)
  end.

(** The loops [for join in _joins] of both compilers. *)
Definition join_relations (q : statement) (_joins : list relation_join)
    (_inner_cte : list string) : statement :=
  fold_left
    (fun q (j : relation_join) =>
       let '(relation_name, cte, on_clause) := j in
       Sql.join q cte on_clause (bool_decide (relation_name ∉ _inner_cte)))
    _joins q.

(** [if action.select:] is true of a list that is not empty. *)
Definition truthy_select (sel : option (list string)) : option (list string) :=
  match sel with
  | Some (a :: l) => Some (a :: l)
  | _ => None
  end.

Definition model_id (m : model) : column := Column m "id".

(** [desc(col)] under [SortOrder.DESC] and [asc(col)] otherwise. *)
Definition ordering (o : SortOrder) (c : column) : expr :=
  match o with
  | DESC => Desc (Col c)
  | ASC => Asc (Col c)
  end.

(** [_relation_select], lines 307-360: the statement [q] over the entity of
    the relation and [_field_to_select]. *)
Definition relation_select_base (w : World) (action : ActionTree)
    (serializer : BaseSerializer) (sql_relation : Relationship)
    (parent_id_col : column) (has_parent_id_col : bool)
  : result (statement * list SerializerField) :=
  match truthy_select (select action) with
  | Some sel =>
      let _wild_select := bool_decide (WILDCARD ∈ sel) in
      let! _field_to_select :=
        if _wild_select then Ok (non_relation_fields w serializer)
        else traverse (get_serializer_field serializer) sel in
      let! _field_to_select := exclude_columns w serializer sel _field_to_select in
      let! fld :=
        traverse (fun f => get_db_field serializer (field f)) _field_to_select in
      let fld := set_of (List.map Attribute fld) in
      let fld :=
        if has_parent_id_col then
          if bool_decide (direction sql_relation ≠ MANYTOMANY)
          then set_add (TableColumn parent_id_col) fld else fld
        else fld in
      let! filtered :=
        traverse
          (fun flt =>
             let! sf := get_serializer_field_of serializer (flt_field flt) in
             get_db_field serializer (field sf))
          (List.filter (fun flt => negb (is_nested (flt_field flt))) (filters action)) in
      let fld := fold_left (fun fld c => set_add (Attribute c) fld) filtered fld in
      let! id := get_db_field serializer "id" in
      let fld := set_add (Attribute id) fld in
      Ok (Sql.select (List.map selected_expr fld), _field_to_select)
  | None =>
      Ok (Sql.select [Entity (ser_model serializer)], non_relation_fields w serializer)
  end.

(** [_relation_select].  The first argument bounds the depth of the
    recursion through [_resolve_relationships]. *)
Fixpoint _relation_select (bound : nat) (w : World) (action : ActionTree)
    (serializer : option BaseSerializer) (parent_model : model)
    (sql_relation : Relationship) {struct bound}
  : result (selectable * ActionTree) :=
  match bound with
  | O => Raise RecursionBound
  | S bound =>
      let (left, right) := primaryjoin sql_relation in
      let! serializer := deref "get_model_inspection" serializer in
      let _model_inspect := get_model_inspection w serializer in
      let (parent_id_col, other_id_col) :=
        if bool_decide (left ∈ columns _model_inspect)
        then (left, right) else (right, left) in
      let has_parent_id_col :=
        bool_decide (parent_id_col ≠ model_id (ser_model serializer)) in
      let! (q, _field_to_select) :=
        relation_select_base w action serializer sql_relation
          parent_id_col has_parent_id_col in
      let! q :=
        match sort action with
        | Some s =>
            let! col := get_db_field_of serializer (sort_field s) in
            Ok (Sql.order_by q (ordering (order s) col))
        | None => Ok q
        end in
      let! fields_into_json :=
        traverse
          (fun field_def =>
             let! c := subquery_c w q (field field_def) in
             Ok [Text (alias field_def); c])
          _field_to_select in
      let fields_into_json := concat fields_into_json in
      let! (rels, filter_items, _inner_cte) :=
        relation_select_filters w serializer q (filters action)
          (relations action, [], []) in
      let! q_c_id := subquery_c_attr w q "id" in
      let! (relation_fields_into_json, _joins, rels) :=
        _resolve_relationships w (_relation_select bound w) rels serializer q_c_id in
      let fields_into_json := fields_into_json ++ relation_fields_into_json in
      let by_parent_id :=
        negb has_parent_id_col
        || bool_decide (direction sql_relation = MANYTOMANY) in
      let! key :=
        if by_parent_id then Ok (Col (model_id parent_model))
        else subquery_c w q (col_name parent_id_col) in
      let _cte :=
        Sql.select_from
          (Sql.select
             [Label (Func "json_group_array" [Func "json_object" fields_into_json]) "obj";
              Label key "id"])
          (Subquery q) in
      let! _cte :=
        if bool_decide (direction sql_relation = MANYTOMANY) then
          let relation_model_table := Table (col_table right) in
          let! secondary :=
            deref "right" (secondaryjoin sql_relation) in
          let _cte :=
            Sql.join _cte relation_model_table (Eq (Col (snd secondary)) q_c_id) false in
          Ok (Sql.join _cte (Table parent_model) (Eq (Col other_id_col) (Col right)) false)
        else if negb has_parent_id_col then
          let! c := subquery_c w q (col_name parent_id_col) in
          Ok (Sql.join _cte (Table parent_model) (Eq (Col other_id_col) c) true)
        else Ok _cte in
      let _cte := join_relations _cte _joins _inner_cte in
      let _cte :=
        match filter_items with
        | [] => _cte
        | _ :: _ => Sql.filter _cte [And filter_items]
        end in
      let _cte := Sql.group_by _cte key in
      Ok (Cte _cte ["NOT MATERIALIZED"], set_relations action rels)
  end.

(** The size of a specification: it bounds how deep [_relation_select]
    recurses, also through the specifications that dotted filters create. *)
Fixpoint weight (t : ActionTree) : nat :=
  S (list_sum (List.map (fun f => length (flt_field f)) (filters t))
     + (fix weights (rs : list (string * ActionTree)) : nat :=
          match rs with
          | [] => 0
          | (_, c) :: rs' => weight c + weights rs'
          end) (relations t)).

(** [_json_query], lines 74-101: [_field_to_select]. *)
Definition json_query_field_to_select (w : World) (serializer : BaseSerializer)
    (sel : list string) : result (list SerializerField) :=
  let _wild_select := bool_decide ("*" ∈ sel) in
  let! _field_to_select :=
    if _wild_select then Ok (non_relation_fields w serializer)
    else
      traverse (get_serializer_field serializer)
        (List.filter (fun field_alias => negb (startswith field_alias "!")) sel) in
  exclude_columns w serializer sel _field_to_select.

(** [_json_query], lines 187-192: the sort the walk below hands to the
    specification of a segment. *)
Definition forwarded_sort (s : SortAction) : SortAction :=
  {| sort_field :=
       if is_nested (sort_field s) then shift_down (sort_field s) else sort_field s;
     order := order s |}.

(** [_json_query], lines 157-211: the sort of the root specification.
    [stack] lists [field_stack] in the order [pop] returns it, so that
    [field_stack[-1]] after a [pop] is the head of what is left. *)
Fixpoint sort_walk (w : World) (serializer : BaseSerializer) (s : SortAction)
    (stack : list string) (q : statement) (rels : list (string * ActionTree))
  : result (statement * list (string * ActionTree)) :=
  match stack with
  | [] => Ok (q, rels)
  | current_field :: field_stack =>
      let rel_action :=
        match dict_get rels current_field with
        | Some t => t
        | None => new_ActionTree None
        end in
      let rels :=
        dict_set rels current_field (set_sort rel_action (forwarded_sort s)) in
      match field_stack with
      | next :: _ =>
          let! serializer_entity :=
            get_prop_serializer w (ser_model serializer) next in
          sort_walk w serializer s field_stack q rels
      | [] =>
          let! serializer_entity :=
            deref "get_db_field" (get_serializer w (ser_model serializer)) in
          let! sf := get_serializer_field serializer_entity current_field in
          let! db_field := get_db_field serializer_entity (field sf) in
          let order_by_clause := ordering (order s) db_field in
          Ok (Sql.order_by q order_by_clause, rels)
      end
  end.

Definition json_query_sort (w : World) (serializer : BaseSerializer)
    (qo_sort : option SortAction) (q : statement) (rels : list (string * ActionTree))
  : result (statement * list (string * ActionTree)) :=
  match qo_sort with
  | None => Ok (q, rels)
  | Some s =>
      match sort_field s with
      | [name] =>
          let! sf := get_serializer_field serializer name in
          let! c := get_db_field serializer (field sf) in
          Ok (Sql.order_by q (ordering (order s) c), rels)
      | stack => sort_walk w serializer s stack q rels
      end
  end.

(** [_json_query], lines 135-145: the join columns of the relations that are
    not the id of the entity. *)
Definition hidden_join_column (w : World) (serializer : BaseSerializer)
    (relation_name : string) : result (list expr) :=
  let _model_inspect := get_model_inspection w serializer in
  let! sql_relation := getitem (relationships _model_inspect) relation_name in
  let (left, right) := primaryjoin sql_relation in
  let this_id_col :=
    if bool_decide (left ∈ columns _model_inspect) then left else right in
  let has_child_id_col := bool_decide (this_id_col ≠ model_id (ser_model serializer)) in
  Ok (if has_child_id_col then [Col this_id_col] else []).

(** [if qo.offset:] and [if qo.limit:]: [None] and [0] are false. *)
Definition truthy_int (n : option Z) : option Z :=
  match n with
  | Some z => if decide (z = 0%Z) then None else Some z
  | None => None
  end.

(** [_json_query]: the statement (before [q.subquery()] wraps it) and the
    specification as compilation leaves it. *)
Definition json_query_statement (w : World) (qo : ActionTree)
    (serializer : BaseSerializer) : result (statement * ActionTree) :=
  let _model_inspect := get_model_inspection w serializer in
  let! sel :=
    match select qo with
    | Some sel => Ok sel
    | None => Raise TypeError
    end in
  let! _field_to_select := json_query_field_to_select w serializer sel in
  let! _fields :=
    traverse
      (fun f =>
         let! c := get_db_field serializer (field f) in
         Ok [Text (alias f); Col c])
      _field_to_select in
  let _fields := concat _fields in
  let! _hidden_fields_to_select :=
    if bool_decide ("id" ∈ sel) then Ok []
    else let! c := get_db_field serializer "id" in Ok [Col c] in
  let! (rels, _filters, _inner_cte) :=
    json_query_filters serializer (filters qo) (relations qo, [], []) in
  let! (rel_fields, _joins, rels) :=
    _resolve_relationships w (_relation_select (weight qo) w) rels serializer
      (Col (model_id (ser_model serializer))) in
  let _fields := _fields ++ rel_fields in
  let! hidden :=
    traverse (fun r => hidden_join_column w serializer (fst r)) rels in
  let _hidden_fields_to_select := _hidden_fields_to_select ++ concat hidden in
  let obj := Func "json_object" _fields in
  let q := Sql.select (Label obj "sql_rest" :: _hidden_fields_to_select) in
  let q := join_relations q _joins _inner_cte in
  let q :=
    match _filters with
    | [] => q
    | _ :: _ => Sql.filter q _filters
    end in
  let! (q, rels) := json_query_sort w serializer (sort qo) q rels in
  let q := match truthy_int (offset qo) with Some n => Sql.offset q n | None => q end in
  let q := match truthy_int (limit qo) with Some n => Sql.limit q n | None => q end in
  let! id := get_db_field serializer "id" in
  let q := Sql.group_by q (Col id) in
  Ok (q, set_relations qo rels).

Definition _json_query (w : World) (qo : ActionTree) (serializer : BaseSerializer)
  : result selectable :=
  let! (q, _) := json_query_statement w qo serializer in
  Ok (Subquery q).

(** [get_all]: the one-row statement that concatenates the objects.  It
    calls no [select_from]: SQLAlchemy derives the FROM clause from the
    subquery that the column [sql_rest] belongs to, which is returned beside
    the statement. *)
Definition get_all (w : World) (query_options : ActionTree)
    (serializer : BaseSerializer) : result (statement * selectable) :=
  let! sub := _json_query w query_options serializer in
  Ok (Sql.select
        [Concat (Concat (Text "[")
                   (Func "coalesce"
                      [Func "group_concat" [SubqueryCol "sql_rest"]; Text ""]))
                (Text "]")],
      sub).

(** ** Vocabulary of the statements below *)

(** An entry of a select list that excludes a column. *)
Definition is_exclusion (field_alias : string) : bool :=
  startswith field_alias EXCLUDE_COLUMN_PREFIX.

(** The alias named by the last exclusion of a select list. *)
Fixpoint last_exclusion (sel : list string) : option string :=
  match sel with
  | [] => None
  | field_alias :: rest =>
      match last_exclusion rest with
      | Some excluded => Some excluded
      | None =>
          if is_exclusion field_alias then Some (from_index_1 field_alias) else None
      end
  end.

(** The dotted filters of a specification, and the relations they lead
    into. *)
Definition dotted (flts : list FilterAction) : list FilterAction :=
  List.filter (fun f => is_nested (flt_field f)) flts.


(** The filter a dotted filter becomes one level down. *)
Definition shifted (f : FilterAction) : FilterAction :=
  {| flt_field := shift_down (flt_field f);
     operator := operator f;
     flt_value := flt_value f |}.

(** [relations] of a specification once every dotted filter of [flts] has
    been pushed down. *)
Definition pushed_relations (synthesized : option (list string))
    (rels : list (string * ActionTree)) (flts : list FilterAction)
  : list (string * ActionTree) :=
  fold_left (push_down synthesized) (dotted flts) rels.

(** A specification with more filters at the end of its list. *)
Definition add_filters (t : ActionTree) (fs : list FilterAction) : ActionTree :=
  mkActionTree (select t) (filters t ++ fs) (sort t) (relations t) (offset t) (limit t).

(** The dotted filters that lead into the relation [name]. *)
Definition dotted_into (name : string) (flts : list FilterAction) : list FilterAction :=
  List.filter (fun f => bool_decide (first_segment (flt_field f) = name)) (dotted flts).

(** The join clause the loops [for join in _joins] emit for an entry of
    [_joins]. *)
Definition join_clause (_inner_cte : list string) (j : relation_join) : Join selectable :=
  {| target := snd (fst j);
     onclause := snd j;
     isouter := bool_decide (fst (fst j) ∉ _inner_cte) |}.

(** [_inner_cte] at the end of a filter loop. *)
Definition inner_cte (flts : list FilterAction) : list string :=
  List.map (fun f => first_segment (flt_field f)) (dotted flts).

Definition is_table (t : selectable) : Prop := exists name, t = Table name.

(** Values of a specification that the compilers never change. *)
Definition same_request (t t' : ActionTree) : Prop :=
  select t' = select t /\ filters t' = filters t.


(** The entry the dotted filters of [flts] leave for the relation [name]
    in [rels']: the specification the relation had in [rels], or a new one
    with [select = synthesized] when it had none, with the shifted remainders
    of the filters that lead into it appended. *)
Definition pushed_entry (synthesized : option (list string))
    (rels : list (string * ActionTree)) (flts : list FilterAction)
    (name : string) (t : ActionTree) : Prop :=
  let before :=
    match dict_get rels name with
    | Some t0 => t0
    | None => new_ActionTree synthesized
    end in
  select t = select before
  /\ filters t = filters before ++ List.map shifted (dotted_into name flts).

(** The sizes of the specifications of a dictionary, added up. *)
Definition weights (rels : list (string * ActionTree)) : nat :=
  list_sum (List.map (fun r => weight (snd r)) rels).

Definition filters_weight (flts : list FilterAction) : nat :=
  list_sum (List.map (fun f => length (flt_field f)) flts).

(** A run that does not end for want of recursion depth. *)
Definition within_bound {A : Type} (m : result A) : Prop := m <> Raise RecursionBound.

(** The filters of a specification that are not dotted. *)
Definition direct (flts : list FilterAction) : list FilterAction :=
  List.filter (fun f => negb (is_nested (flt_field f))) flts.

(** The registry stores every serializer under its own model. *)
Definition registry_ok (w : World) : Prop :=
  forall m cls, serializers w !! m = Some cls -> ser_model cls = m.

(** The keys of the arguments of [json_object], which alternate with the
    values. *)
Fixpoint json_keys (args : list expr) : list expr :=
  match args with
  | key :: _ :: rest => key :: json_keys rest
  | _ => []
  end.

(** The relations [_resolve_relationships] puts into the JSON object: those
    whose specification has a [select]. *)
Definition embedded_names (rels : list (string * ActionTree)) : list string :=
  List.map fst (List.filter (fun r => bool_decide (select (snd r) <> None)) rels).

(** [d'] has the keys of [d], in their order, and then possibly more; and
    no key twice when [d] has none twice. *)
Definition keys_extend {A : Type} (d d' : list (string * A)) : Prop :=
  (exists extra, List.map fst d' = List.map fst d ++ extra)
  /\ (NoDup (List.map fst d) -> NoDup (List.map fst d')).

(** [_relation_select], lines 296-303: the column of the join condition
    that belongs to the entity of the relation ([parent_id_col] in the
    source) and the other one ([other_id_col]). *)
Definition join_columns (w : World) (cls : BaseSerializer) (rel : Relationship)
  : column * column :=
  if bool_decide (fst (primaryjoin rel) ∈ columns (get_model_inspection w cls))
  then (fst (primaryjoin rel), snd (primaryjoin rel))
  else (snd (primaryjoin rel), fst (primaryjoin rel)).

Definition table_join (t : string) (on : expr) (outer : bool) : Join selectable :=
  {| target := Table t; onclause := on; isouter := outer |}.

(** The specification reached from [t] through the relations [path]. *)
Fixpoint descend (t : ActionTree) (path : list string) : option ActionTree :=
  match path with
  | [] => Some t
  | name :: rest =>
      match dict_get (relations t) name with
      | Some c => descend c rest
      | None => None
      end
  end.

(** The direct filter a dotted filter ends as: its operator and value on
    the last segment of its path. *)
Definition direct_filter (f : FilterAction) (leaf : string) : FilterAction :=
  {| flt_field := [leaf]; operator := operator f; flt_value := flt_value f |}.

(** ** What the target store does with the statements

    The compilers only build statements; three claims of the specification
    speak of the rows and JSON values the statements yield.  The functions
    of this section give the constructs those claims depend on their SQL
    (SQLite) meaning: which parent rows a join keeps, what [LIMIT] and
    [OFFSET] return, and the value of the expression that embeds a
    relation. *)
Module Sqlite.


(** [LIMIT] and [OFFSET] apply to the rows left after grouping and
    ordering; a negative limit is no limit and a negative offset is none. *)
Definition offset_limit {A : Type} (q : statement) (rows : list A) : list A :=
  let rows :=
    match offset_clause q with
    | Some n => drop (Z.to_nat n) rows
    | None => rows
    end in
  match limit_clause q with
  | Some n => if decide (n < 0)%Z then rows else take (Z.to_nat n) rows
  | None => rows
  end.




End Sqlite.

(** [paginated t]: some statement of [t], at any depth, has a [LIMIT] or an
    [OFFSET]. *)
Fixpoint paginated (t : selectable) : bool :=
  let inside (s : Select selectable) : bool :=
    bool_decide (is_Some (offset_clause s))
    || bool_decide (is_Some (limit_clause s))
    || match from_obj s with Some t' => paginated t' | None => false end
    || existsb (fun j => paginated (target j)) (joins s) in
  match t with
  | Table _ => false
  | Subquery s => inside s
  | Cte s _ => inside s
  end.

(** ** A schema to run the compilers on: authors and their books *)
Module Library.

Definition author_id : column := Column "author" "id".
Definition book_author_id : column := Column "book" "author_id".

Definition AuthorSerializer : BaseSerializer :=
  {| ser_model := "author";
     model_dict := ["id"; "name"; "age"; "books"];
     fields := [new_SerializerField "id" None; new_SerializerField "name" None;
                new_SerializerField "age" None; new_SerializerField "books" None] |}.

Definition BookSerializer : BaseSerializer :=
  {| ser_model := "book";
     model_dict := ["id"; "title"; "author_id"; "author"];
     fields := [new_SerializerField "id" None; new_SerializerField "title" None;
                new_SerializerField "author_id" None;
                new_SerializerField "author" None] |}.

(** A second serializer for the same mapped class as [AuthorSerializer]. *)
Definition AuthorNameSerializer : BaseSerializer :=
  {| ser_model := "author";
     model_dict := ["id"; "name"; "age"; "books"];
     fields := [new_SerializerField "id" None; new_SerializerField "name" None] |}.

(** [Author.books], with the direction left open, and [Book.author]. *)
Definition books (d : RelationshipDirection) : Relationship :=
  {| direction := d; primaryjoin := (author_id, book_author_id);
     secondaryjoin := None; rel_entity := "book" |}.

Definition author : Relationship :=
  {| direction := MANYTOONE; primaryjoin := (author_id, book_author_id);
     secondaryjoin := None; rel_entity := "author" |}.

Definition inspection (d : RelationshipDirection) (m : model) : ModelInspection :=
  if decide (m = "author") then
    {| relationships := {[ "books" := books d ]};
       columns := [author_id; Column "author" "name"; Column "author" "age"] |}
  else
    {| relationships := {[ "author" := author ]};
       columns := [Column "book" "id"; Column "book" "title"; book_author_id] |}.

Definition empty_world (d : RelationshipDirection) : World :=
  {| serializers := ∅; inspect := inspection d |}.

Definition world (d : RelationshipDirection) : World :=
  init_subclass BookSerializer (init_subclass AuthorSerializer (empty_world d)).

Definition title_is (path : FieldPath) (title : string) : FilterAction :=
  {| flt_field := path; operator := "eq"; flt_value := VStr title |}.

End Library.

(** ** Reasoning about the exception monad *)

Lemma bind_Ok {A B : Type} (m : result A) (k : A -> result B) (b : B) :
  bind m k = Ok b -> exists a, m = Ok a /\ k a = Ok b.
Proof. destruct m as [a|e]; simpl; intros H; [eauto | discriminate]. Qed.

(** [inv_ok H]: take a successful run [H : ... = Ok _] apart, bind after
    bind. *)
Ltac inv_ok H :=
  repeat match type of H with
  | bind _ _ = Ok _ =>
      let a := fresh "a" in
      let Ha := fresh "Hrun" in
      apply bind_Ok in H; destruct H as (a & Ha & H)
  | (let (_, _) := ?p in _) = Ok _ => destruct p
  | (match ?p with (_, _) => _ end) = Ok _ => destruct p
  end.

(** ** The registry *)

Lemma get_serializer_init_subclass (w : World) (cls : BaseSerializer) (m : model) :
  get_serializer (init_subclass cls w) m
  = if decide (ser_model cls = m) then Some cls else get_serializer w m.
Proof. unfold get_serializer, init_subclass; simpl. apply lookup_insert. Qed.

(** C9, as the code has it: registration never fails; it stores the class
    under its model whatever was stored there before, so the registry maps
    each model to the serializer registered last, and leaves the other
    models alone. *)
Theorem init_subclass_registers_last (w : World) (cls : BaseSerializer) :
  get_serializer (init_subclass cls w) (ser_model cls) = Some cls
  /\ forall m, m <> ser_model cls ->
       get_serializer (init_subclass cls w) m = get_serializer w m.
Proof.
  split.
  - rewrite get_serializer_init_subclass. by rewrite decide_True.
  - intros m Hm. rewrite get_serializer_init_subclass. by rewrite decide_False.
Qed.

Lemma init_subclass_registers_last_witness :
  let w := init_subclass Library.AuthorSerializer (Library.empty_world ONETOMANY) in
  "book" <> ser_model Library.AuthorNameSerializer
  /\ get_serializer (init_subclass Library.AuthorNameSerializer w) "author"
     = Some Library.AuthorNameSerializer
  /\ get_serializer (init_subclass Library.AuthorNameSerializer w) "book"
     = get_serializer w "book".
Proof.
  cbv zeta. split; [discriminate |]. split.
  - apply (proj1 (init_subclass_registers_last _ Library.AuthorNameSerializer)).
  - apply (proj2 (init_subclass_registers_last _ Library.AuthorNameSerializer)).
    discriminate.
Defined.

(** C9 as stated fails: a second registration for the model of
    [AuthorSerializer] goes through and replaces the first. *)
Lemma init_subclass_overwrites :
  let w1 := init_subclass Library.AuthorSerializer (Library.empty_world ONETOMANY) in
  let w2 := init_subclass Library.AuthorNameSerializer w1 in
  get_serializer w1 "author" = Some Library.AuthorSerializer
  /\ get_serializer w2 "author" = Some Library.AuthorNameSerializer
  /\ Library.AuthorNameSerializer <> Library.AuthorSerializer.
Proof. repeat split; try reflexivity. discriminate. Qed.

(** C10: for a model without a registered serializer [get_serializer]
    returns [None] and raises nothing, and [get_prop_serializer] calls
    [get_model_inspection] on that [None], which is an [AttributeError]. *)
Theorem get_serializer_unregistered (w : World) (_type : model) (prop : string) :
  serializers w !! _type = None ->
  get_serializer w _type = None
  /\ get_prop_serializer w _type prop = Raise (AttributeError "get_model_inspection").
Proof.
  intros H. unfold get_prop_serializer, get_serializer. rewrite H. split; reflexivity.
Qed.

Lemma get_serializer_unregistered_witness :
  serializers (Library.empty_world ONETOMANY) !! "author" = None
  /\ get_serializer (Library.empty_world ONETOMANY) "author" = None
  /\ get_prop_serializer (Library.empty_world ONETOMANY) "author" "books"
     = Raise (AttributeError "get_model_inspection").
Proof.
  split; [reflexivity |].
  apply (get_serializer_unregistered (Library.empty_world ONETOMANY) "author" "books").
  reflexivity.
Defined.

(** ** Field selection *)

Lemma exclude_columns_last (w : World) (serializer : BaseSerializer)
    (sel : list string) (start : list SerializerField) :
  is_ok (exclude_columns w serializer sel start) = true ->
  exclude_columns w serializer sel start
  = match last_exclusion sel with
    | None => Ok start
    | Some excluded =>
        let! e := get_serializer_field serializer excluded in
        list_remove e (non_relation_fields w serializer)
    end.
Proof.
  revert start. induction sel as [|a rest IH]; intros start Hok; [reflexivity |].
  simpl in *. fold (is_exclusion a) in *.
  destruct (is_exclusion a) eqn:Ha.
  - destruct (get_serializer_field serializer (from_index_1 a)) as [e|] eqn:He;
      [| discriminate].
    simpl in *.
    destruct (list_remove e (non_relation_fields w serializer)) as [rem|] eqn:Hr;
      [| discriminate].
    simpl in *. rewrite (IH rem Hok).
    destruct (last_exclusion rest); [reflexivity |].
    simpl. by rewrite He.
  - rewrite (IH start Hok). by destruct (last_exclusion rest).
Qed.

(** C3: [select = ["*", "!name"]] over the fields id, name and age projects
    id and age and not name, at the root and in a relation; and whenever the
    exclusion loop of either compiler finishes, the field set it leaves is
    the full list of non-relation fields without the field of the last
    exclusion, whatever the set was before and whatever the earlier
    exclusions named (the starting set survives only without exclusions). *)
Theorem exclusion_resets_to_all_fields :
  let w := Library.world ONETOMANY in
  let id := new_SerializerField "id" None in
  let age := new_SerializerField "age" None in
  (exists q qo,
     json_query_statement w (mkActionTree (Some ["*"; "!name"]) [] None [] None None)
       Library.AuthorSerializer = Ok (q, qo)
     /\ raw_columns q
        = [Label (Func "json_object"
                    [Text "id"; Col (Column "author" "id");
                     Text "age"; Col (Column "author" "age")]) "sql_rest";
           Col (Column "author" "id")])
  /\ json_query_field_to_select w Library.AuthorSerializer ["*"; "!name"]
     = Ok [id; age]
  /\ (exists q,
        relation_select_base w (mkActionTree (Some ["*"; "!name"]) [] None [] None None)
          Library.AuthorSerializer Library.author Library.author_id false
        = Ok (q, [id; age]))
  /\ forall (w : World) (serializer : BaseSerializer) (sel : list string)
       (start : list SerializerField),
       is_ok (exclude_columns w serializer sel start) = true ->
       exclude_columns w serializer sel start
       = match last_exclusion sel with
         | None => Ok start
         | Some excluded =>
             let! e := get_serializer_field serializer excluded in
             list_remove e (non_relation_fields w serializer)
         end.
Proof.
  cbv zeta. split; [| split; [| split]].
  - eexists _, _. split; [vm_compute; reflexivity | reflexivity].
  - vm_compute. reflexivity.
  - eexists. vm_compute. reflexivity.
  - exact exclude_columns_last.
Qed.

Lemma exclusion_resets_to_all_fields_witness :
  let w := Library.world ONETOMANY in
  let sel := ["name"; "!name"; "*"; "!age"] in
  is_ok (exclude_columns w Library.AuthorSerializer sel []) = true
  /\ exclude_columns w Library.AuthorSerializer sel []
     = (let! e := get_serializer_field Library.AuthorSerializer "age" in
        list_remove e (non_relation_fields w Library.AuthorSerializer)).
Proof.
  cbv zeta. split; [reflexivity |].
  apply (proj2 (proj2 (proj2 exclusion_resets_to_all_fields))). reflexivity.
Defined.

(** With two exclusions the first one is lost: name is back in the
    projection. *)
Example two_exclusions_keep_the_last :
  json_query_field_to_select (Library.world ONETOMANY) Library.AuthorSerializer
    ["*"; "!name"; "!age"]
  = Ok [new_SerializerField "id" None; new_SerializerField "name" None].
Proof. vm_compute. reflexivity. Qed.

(** ** Dictionaries and the filter loops *)

Lemma dict_get_set {A : Type} (d : list (string * A)) (k k' : string) (a : A) :
  dict_get (dict_set d k a) k' = if decide (k = k') then Some a else dict_get d k'.
Proof.
  induction d as [|[k0 b] d IH]; simpl.
  - reflexivity.
  - destruct (decide (k0 = k)) as [->|Hk]; simpl.
    + destruct (decide (k = k')); reflexivity.
    + rewrite IH. destruct (decide (k0 = k')) as [->|]; [| reflexivity].
      by rewrite decide_False.
Qed.

Lemma add_filters_append (t : ActionTree) (f : FilterAction) (fs : list FilterAction) :
  add_filters (append_filter t f) fs = add_filters t (f :: fs).
Proof. unfold add_filters, append_filter; simpl. by rewrite <- app_assoc. Qed.

(** The entry of a relation after the dotted filters [fs] have been pushed
    down: untouched when none of them leads into it, and otherwise its
    specification (a new one when there was none) with their shifted
    remainders appended in order. *)
Lemma dict_get_push_down (synthesized : option (list string)) (name : string)
    (fs : list FilterAction) (rels : list (string * ActionTree)) :
  dict_get (fold_left (push_down synthesized) fs rels) name
  = match List.filter (fun f => bool_decide (first_segment (flt_field f) = name)) fs with
    | [] => dict_get rels name
    | mine =>
        Some (add_filters
                (match dict_get rels name with
                 | Some t => t
                 | None => new_ActionTree synthesized
                 end)
                (List.map shifted mine))
    end.
Proof.
  revert rels. induction fs as [|f fs IH]; intros rels; simpl; [reflexivity |].
  rewrite IH. unfold push_down. rewrite dict_get_set.
  fold (shifted f).
  destruct (decide (first_segment (flt_field f) = name)) as [Heq|Hne].
  - rewrite bool_decide_eq_true_2 by done. subst name.
    destruct (List.filter _ fs) as [|g mine]; simpl.
    + reflexivity.
    + by rewrite add_filters_append.
  - rewrite bool_decide_eq_false_2 by done. reflexivity.
Qed.

Lemma json_query_filters_Ok (serializer : BaseSerializer) (flts : list FilterAction)
    (rels rels' : list (string * ActionTree)) (fl fl' : list expr)
    (inner inner' : list string) :
  json_query_filters serializer flts (rels, fl, inner) = Ok (rels', fl', inner') ->
  rels' = pushed_relations None rels flts
  /\ inner' = inner ++ inner_cte flts.
Proof.
  revert rels fl inner. induction flts as [|f flts IH]; intros rels fl inner H.
  - simpl in H. injection H as <- <- <-. split; [reflexivity | by rewrite app_nil_r].
  - simpl in H. unfold pushed_relations, inner_cte, dotted. simpl.
    destruct (is_nested (flt_field f)) eqn:Hn.
    + apply IH in H as [-> ->]. simpl. split; [reflexivity |].
      by rewrite <- app_assoc.
    + inv_ok H. apply IH in H as [-> ->]. done.
Qed.

Lemma relation_select_filters_Ok (w : World) (serializer : BaseSerializer)
    (q : statement) (flts : list FilterAction)
    (rels rels' : list (string * ActionTree)) (fl fl' : list expr)
    (inner inner' : list string) :
  relation_select_filters w serializer q flts (rels, fl, inner) = Ok (rels', fl', inner') ->
  rels' = pushed_relations (Some ["id"]) rels flts
  /\ inner' = inner ++ inner_cte flts.
Proof.
  revert rels fl inner. induction flts as [|f flts IH]; intros rels fl inner H.
  - simpl in H. injection H as <- <- <-. split; [reflexivity | by rewrite app_nil_r].
  - simpl in H. unfold pushed_relations, inner_cte, dotted. simpl.
    destruct (is_nested (flt_field f)) eqn:Hn.
    + apply IH in H as [-> ->]. simpl. split; [reflexivity |].
      by rewrite <- app_assoc.
    + inv_ok H. apply IH in H as [-> ->]. done.
Qed.


(** ** The statement builder and [_resolve_relationships] *)

Lemma join_relations_eq (q : statement) (js : list relation_join) (inner : list string) :
  join_relations q js inner
  = {| raw_columns := raw_columns q; from_obj := from_obj q;
       joins := joins q ++ List.map (join_clause inner) js;
       where_criteria := where_criteria q; order_by_clauses := order_by_clauses q;
       offset_clause := offset_clause q; limit_clause := limit_clause q;
       group_by_clauses := group_by_clauses q |}.
Proof.
  unfold join_relations. revert q. induction js as [|[[n c] on] js IH]; intros q; simpl.
  - rewrite app_nil_r. by destruct q.
  - rewrite IH. simpl. by rewrite <- app_assoc.
Qed.

(** One round of the loop of [_resolve_relationships]. *)
Lemma resolve_relationships_cons (w : World) (compile : relation_compiler)
    (name : string) (tree : ActionTree) (rest : list (string * ActionTree))
    (serializer : BaseSerializer) (id_field : expr)
    (fs : list expr) (js : list relation_join) (rels' : list (string * ActionTree)) :
  _resolve_relationships w compile ((name, tree) :: rest) serializer id_field
  = Ok (fs, js, rels') ->
  exists sf rel rs cte tree' vs fs0 js0 rels0,
    get_serializer_field serializer name = Ok sf
    /\ relationships (get_model_inspection w serializer) !! field sf = Some rel
    /\ get_prop_serializer w (ser_model serializer) (field sf) = Ok rs
    /\ compile tree rs (ser_model serializer) rel = Ok (cte, tree')
    /\ match select tree with
       | Some _ =>
           exists v, relation_value name (direction rel) = Ok v /\ vs = [Text name; v]
       | None => vs = []
       end
    /\ _resolve_relationships w compile rest serializer id_field = Ok (fs0, js0, rels0)
    /\ fs = vs ++ fs0
    /\ js = (name, cte, Eq id_field (CteCol name "id")) :: js0
    /\ rels' = (name, tree') :: rels0.
Proof.
  intros H. simpl in H. inv_ok H. injection H as <- <- <-.
  unfold getitem in Hrun0.
  destruct (relationships (get_model_inspection w serializer) !! field a) as [rel|] eqn:Hrel;
    [| discriminate].
  injection Hrun0 as <-.
  exists a, rel, a1, s, a2, a3, l0, l1, l. repeat split; try done.
  destruct (select tree).
  - inv_ok Hrun3. injection Hrun3 as <-. eauto.
  - by injection Hrun3 as <-.
Qed.

(** What the loop returns, relation by relation: the join entry of a
    relation carries its name, the fragment [compile] has built for it and
    the comparison of [id_field] with the key of the fragment; the
    specification it hands back is the one [compile] has left. *)
Lemma resolve_relationships_Ok (w : World) (compile : relation_compiler)
    (rels : list (string * ActionTree)) (serializer : BaseSerializer) (id_field : expr)
    (fs : list expr) (js : list relation_join) (rels' : list (string * ActionTree)) :
  _resolve_relationships w compile rels serializer id_field = Ok (fs, js, rels') ->
  Forall2
    (fun (r : string * ActionTree) (j : relation_join) =>
       fst (fst j) = fst r /\ snd j = Eq id_field (CteCol (fst r) "id")
       /\ exists rs rel tree',
            compile (snd r) rs (ser_model serializer) rel = Ok (snd (fst j), tree'))
    rels js
  /\ Forall2
       (fun (r r' : string * ActionTree) =>
          fst r' = fst r
          /\ exists rs rel cte,
               compile (snd r) rs (ser_model serializer) rel = Ok (cte, snd r'))
       rels rels'.
Proof.
  revert fs js rels'. induction rels as [|[name tree] rest IH]; intros fs js rels' H.
  - simpl in H. injection H as <- <- <-. split; constructor.
  - apply resolve_relationships_cons in H
      as (sf & rel & rs & cte & tree' & vs & fs0 & js0 & rels0
          & _ & _ & _ & Hc & _ & Hrest & -> & -> & ->).
    apply IH in Hrest as [IH1 IH2].
    split; constructor; simpl; eauto 10.
Qed.

(** ** [_relation_select], step by step *)

Lemma find_db_field_Some (fs : list SerializerField) (name : string) (f : SerializerField) :
  find_db_field fs name = Some f -> field f = name /\ f ∈ fs.
Proof.
  induction fs as [|g gs IH]; simpl; [discriminate |].
  destruct (decide (field g = name)) as [Hg|Hg].
  - intros [= <-]. split; [done | left].
  - intros H. apply IH in H as [? ?]. split; [done | by right].
Qed.

Lemma get_db_field_Ok (cls : BaseSerializer) (name : string) (c : column) :
  get_db_field cls name = Ok c -> c = Column (ser_model cls) name.
Proof.
  unfold get_db_field. destruct (find_db_field (fields cls) name) as [f|] eqn:Hf;
    [| discriminate].
  apply find_db_field_Some in Hf as [-> _].
  case_bool_decide; [by intros [= <-] | discriminate].
Qed.

Lemma elem_of_set_add (c c' : selected) (fld : list selected) :
  c' ∈ set_add c fld <-> c' = c \/ c' ∈ fld.
Proof.
  unfold set_add. case_bool_decide as Hc.
  - split; [by right | intros [-> | ?]; done].
  - rewrite elem_of_app, list_elem_of_singleton. tauto.
Qed.

Lemma relation_select_base_Ok (w : World) (action : ActionTree)
    (serializer : BaseSerializer) (rel : Relationship) (parent_id_col : column)
    (has_parent_id_col : bool) (q : statement) (fts : list SerializerField) :
  relation_select_base w action serializer rel parent_id_col has_parent_id_col
  = Ok (q, fts) ->
  q = Sql.select (raw_columns q)
  /\ match truthy_select (select action) with
     | Some _ => Col (model_id (ser_model serializer)) ∈ raw_columns q
     | None =>
         raw_columns q = [Entity (ser_model serializer)]
         /\ fts = non_relation_fields w serializer
     end.
Proof.
  unfold relation_select_base. intros H.
  destruct (truthy_select (select action)) as [sel|].
  - inv_ok H. injection H as <- <-. split; [reflexivity |].
    apply get_db_field_Ok in Hrun3 as ->. simpl.
    rewrite list_elem_of_In.
    apply (in_map selected_expr _ (Attribute (model_id (ser_model serializer)))).
    rewrite <- list_elem_of_In. apply elem_of_set_add. by left.
  - by injection H as <- <-.
Qed.

(** A successful run of [_relation_select]: the values of its local
    variables and the statement it returns. *)
Lemma relation_select_Ok (bound : nat) (w : World) (action : ActionTree)
    (s : option BaseSerializer) (parent_model : model) (rel : Relationship)
    (t : selectable) (action' : ActionTree) :
  _relation_select (S bound) w action s parent_model rel = Ok (t, action') ->
  exists serializer parent_id_col has_parent_id_col q0 fts obs json_fields
         relfs js rels key prelude wh,
    s = Some serializer
    /\ relation_select_base w action serializer rel parent_id_col has_parent_id_col
       = Ok (q0, fts)
    /\ traverse
         (fun field_def =>
            let! c := subquery_c w
                        (Sql.select (raw_columns q0)) (field field_def) in
            Ok [Text (alias field_def); c])
         fts = Ok json_fields
    /\ "id" ∈ column_keys w q0
    /\ _resolve_relationships w (_relation_select bound w)
         (pushed_relations (Some ["id"]) (relations action) (filters action))
         serializer (SubqueryCol "id") = Ok (relfs, js, rels)
    /\ Forall (fun j => is_table (target j)) prelude
    /\ t = Cte
             {| raw_columns :=
                  [Label (Func "json_group_array"
                            [Func "json_object" (concat json_fields ++ relfs)]) "obj";
                   Label key "id"];
                from_obj :=
                  Some (Subquery
                          {| raw_columns := raw_columns q0; from_obj := None;
                             joins := []; where_criteria := [];
                             order_by_clauses := obs; offset_clause := None;
                             limit_clause := None; group_by_clauses := [] |});
                joins := prelude ++ List.map (join_clause (inner_cte (filters action))) js;
                where_criteria := wh;
                order_by_clauses := [];
                offset_clause := None;
                limit_clause := None;
                group_by_clauses := [key] |}
             ["NOT MATERIALIZED"]
    /\ action' = set_relations action rels.
Proof.
  intros H. simpl in H.
  destruct (primaryjoin rel) as [left right] eqn:Hpj.
  apply bind_Ok in H as (serializer & Hs & H).
  destruct s as [ser|]; [| discriminate]. injection Hs as ->.
  set (cols := if bool_decide (left ∈ columns (get_model_inspection w serializer))
               then (left, right) else (right, left)) in H.
  destruct cols as [parent_id_col other_id_col] eqn:Hcols. clear Hcols.
  apply bind_Ok in H as ([q0 fts] & Hbase & H).
  apply bind_Ok in H as (q & Hsort & H).
  apply bind_Ok in H as (json_fields & Hjson & H).
  apply bind_Ok in H as ([[rels1 filter_items] inner] & Hflt & H).
  apply bind_Ok in H as (q_c_id & Hid & H).
  apply bind_Ok in H as ([[relfs js] rels] & Hres & H).
  apply bind_Ok in H as (key & Hkey & H).
  apply bind_Ok in H as (cte0 & Hcte & H).
  injection H as <- <-.
  destruct (relation_select_base_Ok _ _ _ _ _ _ _ _ Hbase) as [Hq0 _].
  assert (Hq : exists obs,
             q = {| raw_columns := raw_columns q0; from_obj := None;
                    joins := []; where_criteria := [];
                    order_by_clauses := obs; offset_clause := None;
                    limit_clause := None; group_by_clauses := [] |}).
  { destruct (sort action) as [srt|].
    - inv_ok Hsort. injection Hsort as <-. rewrite Hq0. simpl. eauto.
    - injection Hsort as <-. exists []. rewrite Hq0. reflexivity. }
  destruct Hq as [obs ->].
  apply relation_select_filters_Ok in Hflt as [-> ->]. rewrite app_nil_l in *.
  unfold subquery_c_attr in Hid.
  destruct (bool_decide ("id" ∈ _)) eqn:Hidkey in Hid; [| discriminate].
  apply bool_decide_eq_true_1 in Hidkey.
  injection Hid as <-.
  assert (Hprelude : exists prelude,
             Forall (fun j : Join selectable => is_table (target j)) prelude
             /\ cte0
                = Sql.select_from
                    {| raw_columns :=
                         [Label (Func "json_group_array"
                                   [Func "json_object" (concat json_fields ++ relfs)])
                            "obj";
                          Label key "id"];
                       from_obj := None; joins := prelude; where_criteria := [];
                       order_by_clauses := []; offset_clause := None;
                       limit_clause := None; group_by_clauses := [] |}
                    (Subquery
                       {| raw_columns := raw_columns q0; from_obj := None;
                          joins := []; where_criteria := [];
                          order_by_clauses := obs; offset_clause := None;
                          limit_clause := None; group_by_clauses := [] |})).
  { destruct (bool_decide (direction rel = MANYTOMANY)).
    - inv_ok Hcte. injection Hcte as <-. eexists. split; [| reflexivity].
      repeat constructor; simpl; unfold is_table; eauto.
    - destruct (negb _).
      + inv_ok Hcte. injection Hcte as <-. eexists. split; [| reflexivity].
        repeat constructor; simpl; unfold is_table; eauto.
      + injection Hcte as <-. exists []. split; [constructor | reflexivity]. }
  destruct Hprelude as (prelude & Hprelude & ->).
  exists serializer, parent_id_col,
    (bool_decide (parent_id_col ≠ model_id (ser_model serializer))),
    q0, fts, obs, json_fields, relfs, js, rels, key, prelude,
    (match filter_items with [] => [] | _ :: _ => [And filter_items] end).
  split; [reflexivity |]. split; [exact Hbase |].
  split; [exact Hjson |]. split; [exact Hidkey |]. split; [exact Hres |].
  split; [exact Hprelude |]. split; [| reflexivity].
  rewrite join_relations_eq. destruct filter_items; simpl; reflexivity.
Qed.

(** ** [_json_query], step by step *)

Lemma sort_walk_Ok (w : World) (serializer : BaseSerializer) (s : SortAction)
    (stack : list string) (q q' : statement) (rels rels' : list (string * ActionTree)) :
  sort_walk w serializer s stack q rels = Ok (q', rels') ->
  (q' = q \/ exists e, q' = Sql.order_by q e)
  /\ forall k t, dict_get rels k = Some t ->
       exists t', dict_get rels' k = Some t' /\ same_request t t'.
Proof.
  revert rels. induction stack as [|current rest IH]; intros rels H; simpl in H.
  - injection H as <- <-. split; [by left |]. intros k t Hk. exists t. by split.
  - set (rels1 := dict_set rels current _) in H.
    assert (Hrels1 : forall k t, dict_get rels k = Some t ->
              exists t', dict_get rels1 k = Some t' /\ same_request t t').
    { intros k t Hk. unfold rels1. rewrite dict_get_set.
      destruct (decide (current = k)) as [->|]; [| exists t; by split].
      rewrite Hk. eexists. split; [reflexivity | by split]. }
    destruct rest as [|next rest'].
    + inv_ok H. injection H as <- <-. split; [right; eauto | exact Hrels1].
    + inv_ok H. apply IH in H as [Hq Hrels]. split; [exact Hq |].
      intros k t Hk. apply Hrels1 in Hk as (t1 & Hk1 & [Hs1 Hf1]).
      apply Hrels in Hk1 as (t2 & Hk2 & [Hs2 Hf2]).
      exists t2. split; [done |]. split; congruence.
Qed.

Lemma json_query_sort_Ok (w : World) (serializer : BaseSerializer)
    (qo_sort : option SortAction) (q q' : statement)
    (rels rels' : list (string * ActionTree)) :
  json_query_sort w serializer qo_sort q rels = Ok (q', rels') ->
  (q' = q \/ exists e, q' = Sql.order_by q e)
  /\ (qo_sort = None -> q' = q)
  /\ forall k t, dict_get rels k = Some t ->
       exists t', dict_get rels' k = Some t' /\ same_request t t'.
Proof.
  unfold json_query_sort. intros H.
  assert (Hid : forall k t, dict_get rels k = Some t ->
            exists t', dict_get rels k = Some t' /\ same_request t t').
  { intros k t Hk. exists t. by split. }
  destruct qo_sort as [s|].
  - assert (Hwalk : sort_walk w serializer s (sort_field s) q rels = Ok (q', rels') ->
              (q' = q \/ exists e, q' = Sql.order_by q e)
              /\ (Some s = None -> q' = q)
              /\ forall k t, dict_get rels k = Some t ->
                   exists t', dict_get rels' k = Some t' /\ same_request t t').
    { intros Hw. apply sort_walk_Ok in Hw as [? ?]. repeat split; done. }
    destruct (sort_field s) as [|name [|name' path]]; try (by apply Hwalk).
    inv_ok H. injection H as <- <-. repeat split; [right; eauto | done | exact Hid].
  - injection H as <- <-. repeat split; [by left | exact Hid].
Qed.

(** A successful run of [_json_query]: the values of its local variables
    and the statement it returns. *)
Lemma json_query_statement_Ok (w : World) (qo qo' : ActionTree)
    (serializer : BaseSerializer) (q : statement) :
  json_query_statement w qo serializer = Ok (q, qo') ->
  exists sel fts json_fields hidden relfs js rels rels' wh obs,
    select qo = Some sel
    /\ json_query_field_to_select w serializer sel = Ok fts
    /\ traverse
         (fun f =>
            let! c := get_db_field serializer (field f) in
            Ok [Text (alias f); Col c])
         fts = Ok json_fields
    /\ _resolve_relationships w (_relation_select (weight qo) w)
         (pushed_relations None (relations qo) (filters qo)) serializer
         (Col (model_id (ser_model serializer))) = Ok (relfs, js, rels)
    /\ (forall k t, dict_get rels k = Some t ->
          exists t', dict_get rels' k = Some t' /\ same_request t t')
    /\ (sort qo = None -> obs = [])
    /\ q = {| raw_columns :=
                Label (Func "json_object" (concat json_fields ++ relfs)) "sql_rest"
                :: (if bool_decide ("id" ∈ sel) then []
                    else [Col (model_id (ser_model serializer))]) ++ hidden;
              from_obj := None;
              joins := List.map (join_clause (inner_cte (filters qo))) js;
              where_criteria := wh;
              order_by_clauses := obs;
              offset_clause := truthy_int (offset qo);
              limit_clause := truthy_int (limit qo);
              group_by_clauses := [Col (model_id (ser_model serializer))] |}
    /\ qo' = set_relations qo rels'.
Proof.
  unfold json_query_statement. intros H.
  apply bind_Ok in H as (sel & Hsel & H).
  destruct (select qo) as [sel'|]; [| discriminate]. injection Hsel as ->.
  apply bind_Ok in H as (fts & Hfts & H).
  apply bind_Ok in H as (json_fields & Hjson & H).
  apply bind_Ok in H as (hidden0 & Hhidden0 & H).
  apply bind_Ok in H as ([[rels1 wh] inner] & Hflt & H).
  apply bind_Ok in H as ([[relfs js] rels] & Hres & H).
  apply bind_Ok in H as (hidden & Hhidden & H).
  apply bind_Ok in H as ([q1 rels'] & Hsort & H).
  apply bind_Ok in H as (id & Hid & H).
  injection H as <- <-.
  apply json_query_filters_Ok in Hflt as [-> ->]. rewrite app_nil_l in *.
  apply get_db_field_Ok in Hid as ->.
  assert (Hh : hidden0 = if bool_decide ("id" ∈ sel) then []
                         else [Col (model_id (ser_model serializer))]).
  { destruct (bool_decide ("id" ∈ sel)).
    - by injection Hhidden0 as <-.
    - inv_ok Hhidden0. injection Hhidden0 as <-.
      by apply get_db_field_Ok in Hrun as ->. }
  subst hidden0.
  apply json_query_sort_Ok in Hsort as (Hq1 & Hnosort & Hrels).
  set (q0 := match wh with [] => _ | _ :: _ => _ end) in *.
  assert (Hq0 : q0 = {| raw_columns :=
                Label (Func "json_object" (concat json_fields ++ relfs)) "sql_rest"
                :: (if bool_decide ("id" ∈ sel) then []
                    else [Col (model_id (ser_model serializer))]) ++ concat hidden;
              from_obj := None;
              joins := List.map (join_clause (inner_cte (filters qo))) js;
              where_criteria := wh;
              order_by_clauses := [];
              offset_clause := None;
              limit_clause := None;
              group_by_clauses := [] |}).
  { unfold q0. rewrite join_relations_eq. by destruct wh. }
  clearbody q0. subst q0.
  exists sel, fts, json_fields, (concat hidden), relfs, js, rels, rels', wh,
    (order_by_clauses q1).
  split; [reflexivity |]. split; [exact Hfts |]. split; [exact Hjson |].
  split; [exact Hres |]. split; [exact Hrels |].
  split; [intros Hn; by rewrite (Hnosort Hn) |].
  split; [| reflexivity].
  destruct Hq1 as [-> | [e ->]];
    destruct (truthy_int (offset qo)), (truthy_int (limit qo)); reflexivity.
Qed.

(** ** Join kinds *)

Lemma relation_select_is_cte (bound : nat) (w : World) (action : ActionTree)
    (s : option BaseSerializer) (parent_model : model) (rel : Relationship)
    (t : selectable) (action' : ActionTree) :
  _relation_select bound w action s parent_model rel = Ok (t, action') ->
  exists c prefixes, t = Cte c prefixes.
Proof.
  destruct bound; [discriminate |]. intros H.
  apply relation_select_Ok in H
    as (? & ? & ? & ? & ? & ? & ? & ? & ? & ? & ? & ? & ? & _ & _ & _ & _ & _ & _ & -> & _).
  eauto.
Qed.




(** The same relation requested for projection only is joined LEFT OUTER. *)
Example projection_only_join_is_outer :
  exists q qo',
    json_query_statement (Library.world ONETOMANY)
      (mkActionTree (Some ["name"]) [] None
         [("books", mkActionTree (Some ["title"]) [] None [] None None)] None None)
      Library.AuthorSerializer = Ok (q, qo')
    /\ List.map isouter (joins q) = [true].
Proof. eexists _, _. split; [vm_compute; reflexivity | reflexivity]. Qed.

(** ** Synthesized relations *)

Lemma dict_get_Forall2 {A : Type} (P : A -> A -> Prop) (d d' : list (string * A))
    (k : string) (a : A) :
  Forall2 (fun r r' => fst r' = fst r /\ P (snd r) (snd r')) d d' ->
  dict_get d k = Some a ->
  exists a', dict_get d' k = Some a' /\ P a a'.
Proof.
  induction 1 as [|[k0 b] [k0' b'] d d' [Hk HP] _ IH]; simpl; [discriminate |].
  simpl in *. subst k0'. destruct (decide (k0 = k)); [| exact IH].
  intros [= ->]. eauto.
Qed.

Lemma resolved_relations (w : World) (bound : nat)
    (rels : list (string * ActionTree)) (serializer : BaseSerializer) (id_field : expr)
    (fs : list expr) (js : list relation_join) (rels' : list (string * ActionTree))
    (k : string) (t : ActionTree) :
  _resolve_relationships w (_relation_select bound w) rels serializer id_field
  = Ok (fs, js, rels') ->
  dict_get rels k = Some t ->
  exists t', dict_get rels' k = Some t' /\ same_request t t'.
Proof.
  intros H Hk. apply resolve_relationships_Ok in H as [_ H].
  eapply dict_get_Forall2; [| exact Hk].
  eapply Forall2_impl; [exact H |].
  intros [n a] [n' a'] [Hn (rs & rel & cte & Hc)]. split; [exact Hn |].
  simpl in *. destruct bound; [discriminate |].
  apply relation_select_Ok in Hc
    as (? & ? & ? & ? & ? & ? & ? & ? & ? & ? & ? & ? & ? & _ & _ & _ & _ & _ & _ & _ & ->).
  by split.
Qed.

Lemma pushed_relations_entry (synthesized : option (list string))
    (rels : list (string * ActionTree)) (flts : list FilterAction) (f : FilterAction) :
  f ∈ flts -> is_nested (flt_field f) = true ->
  exists t,
    dict_get (pushed_relations synthesized rels flts) (first_segment (flt_field f))
    = Some t
    /\ pushed_entry synthesized rels flts (first_segment (flt_field f)) t
    /\ shifted f ∈ List.map shifted (dotted_into (first_segment (flt_field f)) flts).
Proof.
  intros Hf Hn. unfold pushed_relations. rewrite dict_get_push_down.
  fold (dotted_into (first_segment (flt_field f)) flts).
  assert (Hin : f ∈ dotted_into (first_segment (flt_field f)) flts).
  { unfold dotted_into, dotted. rewrite list_elem_of_In, !filter_In, <- list_elem_of_In.
    by rewrite bool_decide_eq_true. }
  unfold pushed_entry.
  destruct (dotted_into _ flts) as [|g mine] eqn:Hmine; [by apply elem_of_nil in Hin |].
  eexists. split; [reflexivity |]. split; [by split |].
  rewrite list_elem_of_In. apply in_map. by rewrite <- list_elem_of_In.
Qed.

(** C5: when [_json_query] or [_relation_select] has compiled a
    specification, every dotted filter of the specification has an entry for
    its leading segment in [relations]; the entry is the specification the
    relation had, or, when it had none, a new one whose [select] is [None]
    at the root and [["id"]] in a relation; and its filters end with the
    shifted remainders of the dotted filters that lead into it, the one of
    this filter among them. *)
Theorem dotted_filters_are_pushed_down :
  (forall (w : World) (qo qo' : ActionTree) (serializer : BaseSerializer)
      (q : statement) (f : FilterAction),
      json_query_statement w qo serializer = Ok (q, qo') ->
      f ∈ filters qo -> is_nested (flt_field f) = true ->
      exists t,
        dict_get (relations qo') (first_segment (flt_field f)) = Some t
        /\ pushed_entry None (relations qo) (filters qo) (first_segment (flt_field f)) t
        /\ shifted f ∈ filters t
        /\ (dict_get (relations qo) (first_segment (flt_field f)) = None ->
            select t = None))
  /\ (forall (bound : nat) (w : World) (action action' : ActionTree)
        (s : option BaseSerializer) (parent_model : model) (rel : Relationship)
        (t : selectable) (f : FilterAction),
        _relation_select bound w action s parent_model rel = Ok (t, action') ->
        f ∈ filters action -> is_nested (flt_field f) = true ->
        exists t,
          dict_get (relations action') (first_segment (flt_field f)) = Some t
          /\ pushed_entry (Some ["id"]) (relations action) (filters action)
               (first_segment (flt_field f)) t
          /\ shifted f ∈ filters t
          /\ (dict_get (relations action) (first_segment (flt_field f)) = None ->
              select t = Some ["id"])).
Proof.
  assert (Hentry : forall synthesized rels flts f t t',
    pushed_entry synthesized rels flts (first_segment (flt_field f)) t ->
    shifted f ∈ List.map shifted (dotted_into (first_segment (flt_field f)) flts) ->
    same_request t t' ->
    pushed_entry synthesized rels flts (first_segment (flt_field f)) t'
    /\ shifted f ∈ filters t'
    /\ (dict_get rels (first_segment (flt_field f)) = None -> select t' = synthesized)).
  { intros synthesized rels flts f t t' [Hs Hf] Hin [Hs' Hf'].
    split; [split; congruence |]. split.
    - rewrite Hf', Hf. apply elem_of_app. by right.
    - intros Hnone. rewrite Hs', Hs, Hnone. reflexivity. }
  split.
  - intros w qo qo' serializer q f H Hf Hn.
    apply json_query_statement_Ok in H
      as (sel & fts & jf & hidden & relfs & js & rels & rels' & wh & obs
          & _ & _ & _ & Hres & Hrels & _ & _ & ->).
    destruct (pushed_relations_entry None (relations qo) (filters qo) f Hf Hn)
      as (t0 & Hget & Hpushed & Hin).
    eapply resolved_relations in Hres as (t1 & Hget1 & Hsame1); [| exact Hget].
    apply Hrels in Hget1 as (t2 & Hget2 & Hsame2).
    exists t2. split; [exact Hget2 |].
    apply (Hentry None (relations qo) (filters qo) f t0 t2 Hpushed Hin).
    destruct Hsame1, Hsame2. split; congruence.
  - intros bound w action action' s parent_model rel t f H Hf Hn.
    destruct bound; [discriminate |].
    apply relation_select_Ok in H
      as (ser & pc & hp & q0 & fts & obs & jf & relfs & js & rels & key & prelude & wh
          & _ & _ & _ & _ & Hres & _ & _ & ->).
    destruct (pushed_relations_entry (Some ["id"]) (relations action) (filters action)
                f Hf Hn) as (t0 & Hget & Hpushed & Hin).
    eapply resolved_relations in Hres as (t1 & Hget1 & Hsame1); [| exact Hget].
    exists t1. split; [exact Hget1 |].
    by apply (Hentry (Some ["id"]) (relations action) (filters action) f t0 t1).
Qed.

Lemma dotted_filters_are_pushed_down_witness :
  let w := Library.world ONETOMANY in
  let f := Library.title_is ["books"; "title"] "X" in
  let qo := mkActionTree (Some ["name"]) [f] None [] None None in
  exists q qo',
    json_query_statement w qo Library.AuthorSerializer = Ok (q, qo')
    /\ f ∈ filters qo
    /\ is_nested (flt_field f) = true
    /\ exists t,
         dict_get (relations qo') "books" = Some t
         /\ pushed_entry None (relations qo) (filters qo) "books" t
         /\ shifted f ∈ filters t
         /\ (dict_get (relations qo) "books" = None -> select t = None).
Proof.
  cbv zeta. eexists _, _. split; [vm_compute; reflexivity |].
  split; [left |]. split; [reflexivity |].
  eapply (proj1 dotted_filters_are_pushed_down (Library.world ONETOMANY)
            (mkActionTree (Some ["name"]) [Library.title_is ["books"; "title"] "X"]
               None [] None None) _
            Library.AuthorSerializer _ (Library.title_is ["books"; "title"] "X")).
  - vm_compute. reflexivity.
  - left.
  - reflexivity.
Defined.

(** ** Pagination and grouping *)

Lemma existsb_false_Forall {A : Type} (f : A -> bool) (l : list A) :
  existsb f l = false <-> Forall (fun a => f a = false) l.
Proof.
  induction l as [|a l IH]; simpl.
  - split; [constructor | reflexivity].
  - rewrite orb_false_iff, Forall_cons, IH. reflexivity.
Qed.

Lemma resolved_fragments (w : World) (bound : nat) (P : selectable -> Prop)
    (rels : list (string * ActionTree)) (serializer : BaseSerializer) (id_field : expr)
    (fs : list expr) (js : list relation_join) (rels' : list (string * ActionTree)) :
  (forall action s parent_model rel t action',
      _relation_select bound w action s parent_model rel = Ok (t, action') -> P t) ->
  _resolve_relationships w (_relation_select bound w) rels serializer id_field
  = Ok (fs, js, rels') ->
  forall inner, Forall (fun j => P (target j)) (List.map (join_clause inner) js).
Proof.
  intros HP H inner. apply resolve_relationships_Ok in H as [H _].
  induction H as [|r [[n c] on] rels0 js0 (_ & _ & rs & rel & tree' & Hc) _ IH]; simpl.
  - constructor.
  - constructor; [| exact IH]. simpl in *. eapply HP, Hc.
Qed.

Lemma relation_select_not_paginated (bound : nat) (w : World) (action action' : ActionTree)
    (s : option BaseSerializer) (parent_model : model) (rel : Relationship)
    (t : selectable) :
  _relation_select bound w action s parent_model rel = Ok (t, action') ->
  paginated t = false.
Proof.
  revert action action' s parent_model rel t.
  induction bound as [|bound IH]; intros action action' s parent_model rel t H;
    [discriminate |].
  apply relation_select_Ok in H
    as (ser & pc & hp & q0 & fts & obs & jf & relfs & js & rels & key & prelude & wh
        & _ & _ & _ & _ & Hres & Hprelude & -> & _).
  simpl. apply existsb_false_Forall, Forall_app. split.
  - eapply Forall_impl; [exact Hprelude |]. by intros j [name ->].
  - eapply resolved_fragments with (P := fun t => paginated t = false); [| exact Hres].
    intros. eapply IH. eassumption.
Qed.

(** C7: the statement of [_json_query] carries the offset and the limit of
    the root specification and groups by the id of the entity; no statement
    of a relation fragment, at any depth, has an offset or a limit.  So with
    [offset = 2], [limit = 3] and no sort, of ten root rows in id order the
    statement returns the third, the fourth and the fifth. *)
Theorem pagination_at_the_root_only :
  (forall (w : World) (qo qo' : ActionTree) (serializer : BaseSerializer) (q : statement),
      json_query_statement w qo serializer = Ok (q, qo') ->
      offset_clause q = truthy_int (offset qo)
      /\ limit_clause q = truthy_int (limit qo)
      /\ group_by_clauses q = [Col (model_id (ser_model serializer))]
      /\ from_obj q = None
      /\ Forall (fun j => paginated (target j) = false) (joins q))
  /\ (forall (bound : nat) (w : World) (action action' : ActionTree)
        (s : option BaseSerializer) (parent_model : model) (rel : Relationship)
        (t : selectable),
        _relation_select bound w action s parent_model rel = Ok (t, action') ->
        paginated t = false)
  /\ (forall (w : World) (qo qo' : ActionTree) (serializer : BaseSerializer)
        (q : statement) (A : Type) (r1 r2 r3 r4 r5 r6 r7 r8 r9 r10 : A),
        json_query_statement w qo serializer = Ok (q, qo') ->
        offset qo = Some 2%Z -> limit qo = Some 3%Z -> sort qo = None ->
        order_by_clauses q = []
        /\ Sqlite.offset_limit q [r1; r2; r3; r4; r5; r6; r7; r8; r9; r10]
           = [r3; r4; r5]).
Proof.
  split; [| split].
  - intros w qo qo' serializer q H.
    apply json_query_statement_Ok in H
      as (sel & fts & jf & hidden & relfs & js & rels & rels' & wh & obs
          & _ & _ & _ & Hres & _ & _ & -> & _).
    simpl. repeat split; try reflexivity.
    eapply resolved_fragments with (P := fun t => paginated t = false); [| exact Hres].
    intros. eapply relation_select_not_paginated. eassumption.
  - exact relation_select_not_paginated.
  - intros w qo qo' serializer q A r1 r2 r3 r4 r5 r6 r7 r8 r9 r10 H Hoff Hlim Hsort.
    apply json_query_statement_Ok in H
      as (sel & fts & jf & hidden & relfs & js & rels & rels' & wh & obs
          & _ & _ & _ & _ & _ & Hobs & -> & _).
    unfold Sqlite.offset_limit. simpl. rewrite Hoff, Hlim, (Hobs Hsort).
    split; reflexivity.
Qed.

Lemma pagination_at_the_root_only_witness :
  let w := Library.world ONETOMANY in
  let qo :=
    mkActionTree (Some ["name"]) [] None
      [("books", mkActionTree (Some ["title"]) [] None [] None None)]
      (Some 2%Z) (Some 3%Z) in
  exists q qo',
    json_query_statement w qo Library.AuthorSerializer = Ok (q, qo')
    /\ offset qo = Some 2%Z /\ limit qo = Some 3%Z /\ sort qo = None
    /\ order_by_clauses q = []
    /\ Sqlite.offset_limit q [1; 2; 3; 4; 5; 6; 7; 8; 9; 10]%Z = [3; 4; 5]%Z.
Proof.
  cbv zeta. eexists _, _. split; [vm_compute; reflexivity |].
  split; [reflexivity |]. split; [reflexivity |]. split; [reflexivity |].
  eapply (proj2 (proj2 pagination_at_the_root_only) (Library.world ONETOMANY)
            (mkActionTree (Some ["name"]) [] None
               [("books", mkActionTree (Some ["title"]) [] None [] None None)]
               (Some 2%Z) (Some 3%Z)) _
            Library.AuthorSerializer);
    [vm_compute; reflexivity | reflexivity | reflexivity | reflexivity].
Defined.

(** ** Embedded relations *)





(** ** Projection *)

Lemma traverse_pairs {A : Type} (key : A -> string) (value : A -> result expr)
    (l : list A) (pairs : list (list expr)) (a : A) :
  traverse (fun a => let! c := value a in Ok [Text (key a); c]) l = Ok pairs ->
  a ∈ l ->
  exists c before after,
    value a = Ok c /\ concat pairs = before ++ Text (key a) :: c :: after.
Proof.
  revert pairs. induction l as [|b l IH]; intros pairs H Hin.
  - by apply elem_of_nil in Hin.
  - simpl in H. inv_ok H. injection H as <-.
    apply bind_Ok in Hrun as (c0 & Hc0 & [= <-]).
    apply elem_of_cons in Hin as [-> | Hin].
    + exists c0, [], (concat a1). done.
    + destruct (IH _ Hrun0 Hin) as (c & before & after & Hc & Heq).
      exists c, (Text (key b) :: c0 :: before), after. simpl. by rewrite Heq.
Qed.

Lemma subquery_c_Ok (w : World) (q : statement) (name : string) (e : expr) :
  subquery_c w q name = Ok e -> e = SubqueryCol name /\ name ∈ column_keys w q.
Proof.
  unfold subquery_c. case_bool_decide; [| discriminate]. by intros [= <-].
Qed.

(** C4 against the code: the root of a request needs a select list.
    [_json_query] begins with [any(... for _field in qo.select)], so a root
    specification whose [select] is [None] raises [TypeError], from
    [_json_query] and from [get_all], and no projection is compiled.  And
    the id column is not in every root projection: with the select list
    [["id"; "!id"]] the exclusion leaves [name] and [age] for the JSON
    object, and since ["id"] is in the list no hidden id column is added. *)
Theorem root_projection_needs_a_select_list :
  (forall (w : World) (qo : ActionTree) (serializer : BaseSerializer),
      select qo = None ->
      json_query_statement w qo serializer = Raise TypeError
      /\ _json_query w qo serializer = Raise TypeError
      /\ get_all w qo serializer = Raise TypeError)
  /\ (let w := Library.world ONETOMANY in
      let qo := mkActionTree (Some ["id"; "!id"]) [] None [] None None in
      exists q qo',
        json_query_statement w qo Library.AuthorSerializer = Ok (q, qo')
        /\ raw_columns q
           = [Label (Func "json_object"
                       [Text "name"; Col (Column "author" "name");
                        Text "age"; Col (Column "author" "age")]) "sql_rest"]).
Proof.
  split.
  - intros w qo serializer Hsel.
    assert (H : json_query_statement w qo serializer = Raise TypeError).
    { unfold json_query_statement. rewrite Hsel. reflexivity. }
    assert (H' : _json_query w qo serializer = Raise TypeError).
    { unfold _json_query. rewrite H. reflexivity. }
    split; [exact H |]. split; [exact H' |].
    unfold get_all. rewrite H'. reflexivity.
  - cbv zeta. eexists _, _. split; [vm_compute; reflexivity | reflexivity].
Qed.

Lemma root_projection_needs_a_select_list_witness :
  let qo := mkActionTree None [Library.title_is ["name"] "X"] None [] None None in
  select qo = None
  /\ json_query_statement (Library.world ONETOMANY) qo Library.AuthorSerializer
     = Raise TypeError
  /\ _json_query (Library.world ONETOMANY) qo Library.AuthorSerializer
     = Raise TypeError
  /\ get_all (Library.world ONETOMANY) qo Library.AuthorSerializer
     = Raise TypeError.
Proof.
  cbv zeta. split; [reflexivity |].
  apply (proj1 root_projection_needs_a_select_list (Library.world ONETOMANY)
           (mkActionTree None [Library.title_is ["name"] "X"] None [] None None)
           Library.AuthorSerializer).
  reflexivity.
Defined.

(** Where [None] is provided for.  A relation whose specification has
    [select = None] selects the whole entity, and the JSON object of its
    fragment has the alias and the column of every non-relation field; the
    base statement of every relation fragment has the id column; and the
    statement of the root has the id column of the entity whenever ["id"]
    is not in its select list. *)
Lemma projection_without_select :
  (forall (bound : nat) (w : World) (action action' : ActionTree)
      (s : option BaseSerializer) (parent_model : model) (rel : Relationship)
      (t : selectable),
      _relation_select bound w action s parent_model rel = Ok (t, action') ->
      exists serializer c prefixes q args key,
        s = Some serializer
        /\ t = Cte c prefixes
        /\ from_obj c = Some (Subquery q)
        /\ raw_columns c
           = [Label (Func "json_group_array" [Func "json_object" args]) "obj";
              Label key "id"]
        /\ "id" ∈ column_keys w q
        /\ (select action = None ->
            raw_columns q = [Entity (ser_model serializer)]
            /\ forall f, f ∈ non_relation_fields w serializer ->
                 exists before after,
                   args = before ++ Text (alias f) :: SubqueryCol (field f) :: after))
  /\ (forall (w : World) (qo qo' : ActionTree) (serializer : BaseSerializer)
        (q : statement) (sel : list string),
        json_query_statement w qo serializer = Ok (q, qo') ->
        select qo = Some sel -> "id" ∉ sel ->
        Col (model_id (ser_model serializer)) ∈ raw_columns q).
Proof.
  split.
  - intros bound w action action' s parent_model rel t H.
    destruct bound; [discriminate |].
    apply relation_select_Ok in H
      as (ser & pc & hp & q0 & fts & obs & jf & relfs & js & rels & key & prelude & wh
          & -> & Hbase & Hjson & Hid & _ & _ & -> & _).
    eexists ser, _, _, _, _, key. split; [reflexivity |]. split; [reflexivity |].
    split; [reflexivity |]. split; [reflexivity |]. split; [exact Hid |].
    intros Hnone. apply relation_select_base_Ok in Hbase as [_ Hbase].
    rewrite Hnone in Hbase. simpl in Hbase. destruct Hbase as [Hcols ->].
    split; [exact Hcols |]. intros f Hf.
    destruct (traverse_pairs _ _ _ _ f Hjson Hf) as (c & before & after & Hc & Heq).
    apply subquery_c_Ok in Hc as [-> _].
    exists before, (after ++ relfs). rewrite Heq, <- app_assoc. reflexivity.
  - intros w qo qo' serializer q sel H Hsel Hid.
    apply json_query_statement_Ok in H
      as (sel' & fts & jf & hidden & relfs & js & rels & rels' & wh & obs
          & Hsel' & _ & _ & _ & _ & _ & -> & _).
    rewrite Hsel in Hsel'. injection Hsel' as <-. simpl.
    rewrite bool_decide_eq_false_2 by done. right. left.
Qed.

Lemma projection_without_select_witness :
  let w := Library.world ONETOMANY in
  let qo := mkActionTree (Some ["name"]) [] None [] None None in
  exists q qo',
    json_query_statement w qo Library.AuthorSerializer = Ok (q, qo')
    /\ select qo = Some ["name"]
    /\ ("id" ∉ ["name"])
    /\ Col (model_id (ser_model Library.AuthorSerializer)) ∈ raw_columns q.
Proof.
  cbv zeta. eexists _, _. split; [vm_compute; reflexivity |].
  split; [reflexivity |].
  assert (Hid : "id" ∉ ["name"]).
  { intros Hin. apply list_elem_of_singleton in Hin. discriminate. }
  split; [exact Hid |].
  eapply (proj2 projection_without_select (Library.world ONETOMANY)
            (mkActionTree (Some ["name"]) [] None [] None None) _
            Library.AuthorSerializer _ ["name"]);
    [vm_compute; reflexivity | reflexivity | exact Hid].
Defined.

(** A relation reached through a dotted filter of the root has
    [select = None]: its fragment selects the whole [Book] and puts every
    column of it into the JSON object. *)
Example synthesized_relation_selects_the_entity :
  exists c prefixes q action',
    _relation_select 1 (Library.world ONETOMANY)
      (mkActionTree None [Library.title_is ["title"] "X"] None [] None None)
      (Some Library.BookSerializer) "author" (Library.books ONETOMANY)
    = Ok (Cte c prefixes, action')
    /\ from_obj c = Some (Subquery q)
    /\ raw_columns q = [Entity "book"]
    /\ raw_columns c
       = [Label (Func "json_group_array"
                   [Func "json_object"
                      [Text "id"; SubqueryCol "id"; Text "title"; SubqueryCol "title";
                       Text "author_id"; SubqueryCol "author_id"]]) "obj";
          Label (SubqueryCol "author_id") "id"].
Proof.
  eexists _, _, _, _. split; [vm_compute; reflexivity |]. repeat split.
Qed.

(** ** Unsupported relationship directions *)




(** ** Dotted sorts *)

Lemma sort_walk_forwards (w : World) (serializer : BaseSerializer) (s : SortAction)
    (stack : list string) (q q' : statement) (rels rels' : list (string * ActionTree)) :
  sort_walk w serializer s stack q rels = Ok (q', rels') ->
  (forall k t, dict_get rels k = Some t -> sort t = Some (forwarded_sort s) ->
     exists t', dict_get rels' k = Some t' /\ sort t' = Some (forwarded_sort s))
  /\ Forall
       (fun segment =>
          exists t, dict_get rels' segment = Some t /\ sort t = Some (forwarded_sort s))
       stack.
Proof.
  revert rels. induction stack as [|current rest IH]; intros rels H; simpl in H.
  - injection H as <- <-. split; [eauto | constructor].
  - set (rels1 := dict_set rels current _) in H.
    assert (Hkeep : forall k t, dict_get rels k = Some t ->
              sort t = Some (forwarded_sort s) ->
              exists t', dict_get rels1 k = Some t' /\ sort t' = Some (forwarded_sort s)).
    { intros k t Hk Hs. unfold rels1. rewrite dict_get_set.
      destruct (decide (current = k)); eauto. }
    assert (Hcur : exists t, dict_get rels1 current = Some t
                             /\ sort t = Some (forwarded_sort s)).
    { unfold rels1. rewrite dict_get_set, decide_True by done. eauto. }
    destruct rest as [|next rest'].
    + inv_ok H. injection H as <- <-. split; [exact Hkeep |].
      constructor; [exact Hcur | constructor].
    + inv_ok H. apply IH in H as [Hk Hall]. split.
      * intros k t Hget Hs. destruct (Hkeep k t Hget Hs) as (t1 & Hget1 & Hs1). eauto.
      * constructor; [| exact Hall]. destruct Hcur as (t1 & Hget1 & Hs1). eauto.
Qed.

Lemma sort_walk_segments (w : World) (serializer : BaseSerializer) (s : SortAction)
    (stack : list string) (q q' : statement) (rels rels' : list (string * ActionTree)) :
  sort_walk w serializer s stack q rels = Ok (q', rels') ->
  stack <> [] ->
  Forall
    (fun segment => is_ok (get_prop_serializer w (ser_model serializer) segment) = true)
    (tail stack)
  /\ exists entity sf c,
       get_serializer w (ser_model serializer) = Some entity
       /\ get_serializer_field entity (List.last stack "") = Ok sf
       /\ get_db_field entity (field sf) = Ok c
       /\ q' = Sql.order_by q (ordering (order s) c).
Proof.
  revert rels. induction stack as [|current rest IH]; intros rels H Hne; [done |].
  simpl in H. destruct rest as [|next rest'].
  - inv_ok H. injection H as <- <-. split; [constructor |].
    destruct (get_serializer w (ser_model serializer)) as [entity|]; [| discriminate].
    injection Hrun as <-. exists entity, a0, a1. by destruct (order s).
  - inv_ok H. apply IH in H as [Hall Hlast]; [| done]. split; [| exact Hlast].
    simpl. constructor; [by rewrite Hrun | exact Hall].
Qed.

(** C6 against the code: [Book] sorted by [author.name].  The walk finds
    the specification of [author] and forwards the sort to it, then looks
    the next segment, [name], up among the relationships of [Book], the root
    entity, and [_json_query] ends in [KeyError].  In general a dotted sort
    only compiles when every segment after the first names a relationship of
    the root entity; the column it then orders by is the one the last
    segment names in the serializer of the root entity, and the sort is
    forwarded to an entry of the root specification for every segment, the
    last one included. *)
Theorem dotted_sort_resolves_against_root :
  json_query_statement (Library.world ONETOMANY)
    (mkActionTree (Some ["title"]) []
       (Some {| sort_field := ["author"; "name"]; order := ASC |})
       [("author", mkActionTree (Some ["name"]) [] None [] None None)] None None)
    Library.BookSerializer
  = Raise (KeyError "name")
  /\ forall (w : World) (serializer : BaseSerializer) (s : SortAction)
       (q q' : statement) (rels rels' : list (string * ActionTree)),
       is_nested (sort_field s) = true ->
       json_query_sort w serializer (Some s) q rels = Ok (q', rels') ->
       Forall
         (fun segment =>
            is_ok (get_prop_serializer w (ser_model serializer) segment) = true)
         (tail (sort_field s))
       /\ Forall
            (fun segment =>
               exists t, dict_get rels' segment = Some t
                         /\ sort t = Some (forwarded_sort s))
            (sort_field s)
       /\ exists entity sf c,
            get_serializer w (ser_model serializer) = Some entity
            /\ get_serializer_field entity (List.last (sort_field s) "") = Ok sf
            /\ get_db_field entity (field sf) = Ok c
            /\ q' = Sql.order_by q (ordering (order s) c).
Proof.
  split; [vm_compute; reflexivity |].
  intros w serializer s q q' rels rels' Hn H. unfold json_query_sort in H.
  destruct (sort_field s) as [|a [|b path]] eqn:Hpath; try discriminate.
  rewrite <- Hpath in H.
  destruct (sort_walk_forwards _ _ _ _ _ _ _ _ H) as [_ Hfw].
  apply sort_walk_segments in H as [Hall Hlast]; [| by rewrite Hpath].
  rewrite Hpath in *. done.
Qed.

Lemma dotted_sort_resolves_against_root_witness :
  let w := Library.world ONETOMANY in
  let s := {| sort_field := ["books"; "books"]; order := DESC |} in
  let q' := Sql.order_by (Sql.select []) (Desc (Col (Column "author" "books"))) in
  let rels' := [("books", set_sort (new_ActionTree None) (forwarded_sort s))] in
  is_nested (sort_field s) = true
  /\ json_query_sort w Library.AuthorSerializer (Some s) (Sql.select []) [] = Ok (q', rels')
  /\ Forall
       (fun segment =>
          is_ok (get_prop_serializer w (ser_model Library.AuthorSerializer) segment) = true)
       (tail (sort_field s))
  /\ Forall
       (fun segment =>
          exists t, dict_get rels' segment = Some t /\ sort t = Some (forwarded_sort s))
       (sort_field s)
  /\ exists entity sf c,
       get_serializer w (ser_model Library.AuthorSerializer) = Some entity
       /\ get_serializer_field entity (List.last (sort_field s) "") = Ok sf
       /\ get_db_field entity (field sf) = Ok c
       /\ q' = Sql.order_by (Sql.select []) (ordering (order s) c).
Proof.
  cbv zeta. split; [reflexivity |]. split; [vm_compute; reflexivity |].
  apply (proj2 dotted_sort_resolves_against_root (Library.world ONETOMANY)
           Library.AuthorSerializer
           {| sort_field := ["books"; "books"]; order := DESC |}
           (Sql.select []) _ [] _ eq_refl).
  vm_compute. reflexivity.
Defined.

(** ** The recursion bound is never reached *)

Lemma weight_eq (t : ActionTree) :
  weight t = S (filters_weight (filters t) + weights (relations t)).
Proof.
  destruct t as [sel flts srt rels off lim]. simpl. unfold filters_weight, weights.
  do 2 f_equal. induction rels as [|[n c] rels IH]; simpl; [reflexivity |].
  by rewrite IH.
Qed.

Lemma weights_elem (rels : list (string * ActionTree)) (name : string) (t : ActionTree) :
  (name, t) ∈ rels -> weight t <= weights rels.
Proof.
  unfold weights. induction rels as [|[n c] rels IH]; intros Hin.
  - by apply elem_of_nil in Hin.
  - apply elem_of_cons in Hin as [[= -> ->] | Hin]; simpl; [lia |].
    apply IH in Hin. lia.
Qed.

Lemma weights_dict_set (d : list (string * ActionTree)) (k : string) (v : ActionTree) :
  weights (dict_set d k v)
  + match dict_get d k with Some t => weight t | None => 0 end
  = weights d + weight v.
Proof.
  unfold weights. induction d as [|[k0 b] d IH]; simpl; [lia |].
  destruct (decide (k0 = k)); simpl; lia.
Qed.

Lemma weight_append_filter (t : ActionTree) (f : FilterAction) :
  weight (append_filter t f) = weight t + length (flt_field f).
Proof.
  rewrite !weight_eq. simpl. unfold filters_weight.
  rewrite map_app, list_sum_app. simpl. lia.
Qed.

Lemma weights_push_down (synthesized : option (list string))
    (rels : list (string * ActionTree)) (f : FilterAction) :
  is_nested (flt_field f) = true ->
  weights (push_down synthesized rels f) <= weights rels + length (flt_field f).
Proof.
  intros Hn. unfold push_down.
  match goal with
  | |- weights (dict_set ?d ?k ?v) <= _ => pose proof (weights_dict_set d k v) as Hset
  end.
  rewrite weight_append_filter in Hset. simpl in Hset.
  assert (Hlen : S (length (shift_down (flt_field f))) = length (flt_field f)).
  { by destruct (flt_field f). }
  destruct (dict_get rels (first_segment (flt_field f))) as [t|].
  - lia.
  - change (weight (new_ActionTree synthesized)) with 1 in Hset. lia.
Qed.

Lemma weights_pushed_relations (synthesized : option (list string))
    (flts : list FilterAction) (rels : list (string * ActionTree)) :
  weights (pushed_relations synthesized rels flts) <= weights rels + filters_weight flts.
Proof.
  unfold pushed_relations, dotted, filters_weight.
  revert rels. induction flts as [|f flts IH]; intros rels; simpl; [lia |].
  destruct (is_nested (flt_field f)) eqn:Hn; simpl.
  - etransitivity; [apply IH |].
    pose proof (weights_push_down synthesized rels f Hn). lia.
  - etransitivity; [apply IH |]. lia.
Qed.

Lemma bind_within_bound {A B : Type} (m : result A) (k : A -> result B) :
  within_bound m -> (forall a, m = Ok a -> within_bound (k a)) ->
  within_bound (bind m k).
Proof.
  unfold within_bound. destruct m as [a|e]; simpl; [eauto | congruence].
Qed.

Lemma traverse_within_bound {A B : Type} (f : A -> result B) (l : list A) :
  (forall a, within_bound (f a)) -> within_bound (traverse f l).
Proof.
  intros Hf. induction l as [|a l IH]; simpl; [discriminate |].
  apply bind_within_bound; [apply Hf | intros b _].
  apply bind_within_bound; [apply IH | discriminate].
Qed.

Create HintDb within.

Lemma deref_within {A : Type} (attribute : string) (o : option A) :
  within_bound (deref attribute o).
Proof. by destruct o. Qed.

Lemma getitem_within {A : Type} (d : gmap string A) (key : string) :
  within_bound (getitem d key).
Proof. unfold getitem. by destruct (d !! key). Qed.

#[local] Hint Resolve deref_within getitem_within : within.

(** [within]: a run built from binds and case distinctions stays within
    the bound when its parts do. *)
Ltac within :=
  repeat first
    [ assumption
    | solve [auto with within]
    | discriminate
    | apply bind_within_bound; [| intros ? ?]
    | apply traverse_within_bound; intros ?
    | match goal with
      | |- within_bound (match ?x with _ => _ end) => destruct x
      | |- within_bound (let (_, _) := ?x in _) => destruct x
      | |- within_bound (Ok _) => discriminate
      | |- within_bound (Raise _) => discriminate
      end ].

Lemma get_serializer_field_within (cls : BaseSerializer) (a : string) :
  within_bound (get_serializer_field cls a).
Proof. unfold get_serializer_field. within. Qed.

Lemma get_db_field_within (cls : BaseSerializer) (a : string) :
  within_bound (get_db_field cls a).
Proof. unfold get_db_field. within. Qed.

Lemma get_prop_serializer_within (w : World) (m : model) (prop : string) :
  within_bound (get_prop_serializer w m prop).
Proof. unfold get_prop_serializer, deref, getitem. within. Qed.

Lemma list_remove_within (x : SerializerField) (l : list SerializerField) :
  within_bound (list_remove x l).
Proof. induction l as [|y l IH]; simpl; within. Qed.

Lemma exclude_columns_within (w : World) (cls : BaseSerializer) (sel : list string)
    (start : list SerializerField) :
  within_bound (exclude_columns w cls sel start).
Proof.
  revert start. induction sel as [|a sel IH]; intros start; simpl; [discriminate |].
  destruct (startswith a EXCLUDE_COLUMN_PREFIX); [| apply IH].
  apply bind_within_bound; [apply get_serializer_field_within | intros e _].
  apply bind_within_bound; [apply list_remove_within | intros r _]. apply IH.
Qed.

Lemma subquery_c_within (w : World) (q : statement) (name : string) :
  within_bound (subquery_c w q name).
Proof. unfold subquery_c. within. Qed.

#[local] Hint Resolve get_serializer_field_within get_db_field_within
  get_prop_serializer_within list_remove_within exclude_columns_within
  subquery_c_within : within.

Lemma get_serializer_field_of_within (cls : BaseSerializer) (p : FieldPath) :
  within_bound (get_serializer_field_of cls p).
Proof. unfold get_serializer_field_of. destruct (plain_name p); within; auto with within. Qed.

Lemma get_db_field_of_within (cls : BaseSerializer) (p : FieldPath) :
  within_bound (get_db_field_of cls p).
Proof. unfold get_db_field_of. destruct (plain_name p); within; auto with within. Qed.

#[local] Hint Resolve get_serializer_field_of_within get_db_field_of_within : within.

Lemma json_query_filters_within (cls : BaseSerializer) (flts : list FilterAction)
    (st : filter_state) :
  within_bound (json_query_filters cls flts st).
Proof.
  revert st. induction flts as [|f flts IH]; intros [[rels fl] inner]; simpl;
    [discriminate |].
  destruct (is_nested (flt_field f)); [apply IH |].
  within; auto with within.
Qed.

Lemma relation_select_filters_within (w : World) (cls : BaseSerializer) (q : statement)
    (flts : list FilterAction) (st : filter_state) :
  within_bound (relation_select_filters w cls q flts st).
Proof.
  revert st. induction flts as [|f flts IH]; intros [[rels fl] inner]; simpl;
    [discriminate |].
  destruct (is_nested (flt_field f)); [apply IH |].
  within; auto with within.
Qed.

Lemma relation_select_base_within (w : World) (action : ActionTree)
    (cls : BaseSerializer) (rel : Relationship) (c : column) (b : bool) :
  within_bound (relation_select_base w action cls rel c b).
Proof. unfold relation_select_base. within; auto with within. Qed.

Lemma sort_walk_within (w : World) (cls : BaseSerializer) (s : SortAction)
    (stack : list string) (q : statement) (rels : list (string * ActionTree)) :
  within_bound (sort_walk w cls s stack q rels).
Proof.
  revert rels. induction stack as [|a stack IH]; intros rels; simpl; [discriminate |].
  destruct stack as [|b stack].
  - unfold deref. within; auto with within.
  - apply bind_within_bound; [auto with within | intros ? _]. apply IH.
Qed.

Lemma json_query_sort_within (w : World) (cls : BaseSerializer)
    (s : option SortAction) (q : statement) (rels : list (string * ActionTree)) :
  within_bound (json_query_sort w cls s q rels).
Proof.
  unfold json_query_sort. destruct s as [s|]; [| discriminate].
  destruct (sort_field s) as [|a [|b p]]; try apply sort_walk_within.
  within; auto with within.
Qed.

Lemma resolve_relationships_within (w : World) (compile : relation_compiler)
    (rels : list (string * ActionTree)) (cls : BaseSerializer) (id_field : expr) :
  (forall name t s m r, (name, t) ∈ rels -> within_bound (compile t s m r)) ->
  within_bound (_resolve_relationships w compile rels cls id_field).
Proof.
  induction rels as [|[name tree] rest IH]; intros Hc; simpl; [discriminate |].
  unfold getitem, relation_value.
  assert (Hrest : within_bound (_resolve_relationships w compile rest cls id_field)).
  { apply IH. intros n t s m r Hin. eapply Hc. right. exact Hin. }
  assert (Hhead : forall s m r, within_bound (compile tree s m r)).
  { intros s m r. eapply Hc. left. }
  within; auto with within.
Qed.

(** [_relation_select] does not run out of recursion depth when the bound
    is at least the weight of the specification. *)
Lemma relation_select_bound (bound : nat) (w : World) (action : ActionTree)
    (s : option BaseSerializer) (parent_model : model) (rel : Relationship) :
  weight action <= bound ->
  within_bound (_relation_select bound w action s parent_model rel).
Proof.
  revert action s parent_model rel.
  induction bound as [|bound IH]; intros action s parent_model rel Hw.
  - rewrite weight_eq in Hw. lia.
  - simpl. destruct (primaryjoin rel) as [left right].
    apply bind_within_bound; [unfold deref; within | intros cls _].
    destruct (if bool_decide (left ∈ columns (get_model_inspection w cls))
              then (left, right) else (right, left)) as [pc oc].
    apply bind_within_bound; [apply relation_select_base_within | intros [q0 fts] _].
    apply bind_within_bound; [within; auto with within | intros q _].
    apply bind_within_bound; [within; auto with within | intros jf _].
    apply bind_within_bound;
      [apply relation_select_filters_within | intros [[rels1 fl] inner] Hflt].
    apply bind_within_bound; [unfold subquery_c_attr; within | intros qid _].
    apply relation_select_filters_Ok in Hflt as [-> _].
    apply bind_within_bound.
    + apply resolve_relationships_within. intros name t s' m r Hin. apply IH.
      apply weights_elem in Hin.
      pose proof (weights_pushed_relations (Some ["id"]) (filters action)
                    (relations action)).
      rewrite weight_eq in Hw. lia.
    + intros [[relfs js] rels] _. unfold deref. within; auto with within.
Qed.

(** [_json_query] never ends for want of recursion depth. *)
Lemma json_query_within_bound (w : World) (qo : ActionTree) (cls : BaseSerializer) :
  within_bound (json_query_statement w qo cls)
  /\ within_bound (_json_query w qo cls).
Proof.
  assert (H : within_bound (json_query_statement w qo cls)).
  { unfold json_query_statement.
    apply bind_within_bound; [within | intros sel _].
    apply bind_within_bound;
      [unfold json_query_field_to_select; within; auto with within | intros fts _].
    apply bind_within_bound; [within; auto with within | intros jf _].
    apply bind_within_bound; [within; auto with within | intros hidden0 _].
    apply bind_within_bound;
      [apply json_query_filters_within | intros [[rels1 fl] inner] Hflt].
    apply json_query_filters_Ok in Hflt as [-> _].
    apply bind_within_bound.
    - apply resolve_relationships_within. intros name t s' m r Hin.
      apply relation_select_bound. apply weights_elem in Hin.
      pose proof (weights_pushed_relations None (filters qo) (relations qo)).
      rewrite (weight_eq qo). lia.
    - intros [[relfs js] rels] _.
      apply bind_within_bound;
        [unfold hidden_join_column, getitem; within; auto with within | intros hidden _].
      apply bind_within_bound; [apply json_query_sort_within | intros [q rels'] _].
      within; auto with within. }
  split; [exact H |]. unfold _json_query. apply bind_within_bound; [exact H |].
  intros [q qo'] _. discriminate.
Qed.

(** A dotted sort that does compile, [books.books] on [Author]: the sort
    reaches the specification of [books] only after the fragment of [books]
    has been built, so the rows inside the fragment are left unordered. *)
Example forwarded_sort_comes_too_late :
  let s := {| sort_field := ["books"; "books"]; order := ASC |} in
  exists q qo' c prefixes sub t,
    json_query_statement (Library.world ONETOMANY)
      (mkActionTree (Some ["name"]) [] (Some s)
         [("books", mkActionTree (Some ["title"]) [] None [] None None)] None None)
      Library.AuthorSerializer = Ok (q, qo')
    /\ List.map target (joins q) = [Cte c prefixes]
    /\ from_obj c = Some (Subquery sub)
    /\ order_by_clauses sub = []
    /\ dict_get (relations qo') "books" = Some t
    /\ sort t = Some (forwarded_sort s)
    /\ order_by_clauses q = [Asc (Col (Column "author" "books"))].
Proof.
  cbv zeta. eexists _, _, _, _, _, _. split; [vm_compute; reflexivity |].
  repeat split.
Qed.

(** * Further properties of the two modules *)

(** ** Lookups of a serializer *)

Lemma find_db_field_None (fs : list SerializerField) (name : string) :
  find_db_field fs name = None <-> name ∉ List.map field fs.
Proof.
  induction fs as [|g gs IH]; simpl.
  - split; [intros _; apply not_elem_of_nil | reflexivity].
  - rewrite not_elem_of_cons. destruct (decide (field g = name)) as [Hg|Hg].
    + split; [discriminate | intros [? _]; congruence].
    + rewrite IH. split; [intros ?; split; [congruence | done] | intros [_ ?]; done].
Qed.

Lemma elem_of_map_field (fs : list SerializerField) (f : SerializerField) :
  f ∈ fs -> field f ∈ List.map field fs.
Proof.
  intros Hin. rewrite list_elem_of_In. apply in_map. by rewrite <- list_elem_of_In.
Qed.

(** A name that some field stores is looked up in the [__dict__] of the
    model. *)
Lemma get_db_field_stored (cls : BaseSerializer) (name : string) :
  name ∈ List.map field (fields cls) ->
  get_db_field cls name
  = if bool_decide (name ∈ model_dict cls)
    then Ok (Column (ser_model cls) name)
    else Raise (KeyError name).
Proof.
  intros Hin. unfold get_db_field.
  destruct (find_db_field (fields cls) name) as [f|] eqn:Hf.
  - apply find_db_field_Some in Hf as [<- _]. reflexivity.
  - apply find_db_field_None in Hf. done.
Qed.

Lemma get_db_field_unknown (cls : BaseSerializer) (name : string) :
  name ∉ List.map field (fields cls) ->
  get_db_field cls name = Raise (UnknownDbField name).
Proof.
  intros Hin. unfold get_db_field. apply find_db_field_None in Hin.
  by rewrite Hin.
Qed.

Lemma get_db_field_Ok_stored (cls : BaseSerializer) (name : string) (c : column) :
  get_db_field cls name = Ok c -> name ∈ List.map field (fields cls).
Proof.
  intros H. destruct (decide (name ∈ List.map field (fields cls))) as [|Hn]; [done |].
  rewrite (get_db_field_unknown _ _ Hn) in H. discriminate.
Qed.

(** [get_db_field] raises the exception "Unknown db model field" for
    exactly the names no field of the serializer stores.  For a stored name
    it subscripts the [__dict__] of the model: the answer is the attribute
    of that name, and a [KeyError] when the model defines none. *)
Theorem get_db_field_lookup (cls : BaseSerializer) (name : string) :
  get_db_field cls name
  = if bool_decide (name ∈ List.map field (fields cls))
    then if bool_decide (name ∈ model_dict cls)
         then Ok (Column (ser_model cls) name)
         else Raise (KeyError name)
    else Raise (UnknownDbField name).
Proof.
  case_bool_decide as Hin.
  - by apply get_db_field_stored.
  - by apply get_db_field_unknown.
Qed.

Lemma find_alias_Some (fs : list SerializerField) (a : string) (f : SerializerField) :
  find_alias fs a = Some f -> alias f = a /\ f ∈ fs.
Proof.
  induction fs as [|g gs IH]; simpl; [discriminate |].
  destruct (decide (alias g = a)) as [Hg|Hg].
  - intros [= <-]. split; [done | left].
  - intros H. apply IH in H as [? ?]. split; [done | by right].
Qed.

Lemma find_alias_None (fs : list SerializerField) (a : string) :
  find_alias fs a = None <-> a ∉ List.map alias fs.
Proof.
  induction fs as [|g gs IH]; simpl.
  - split; [intros _; apply not_elem_of_nil | reflexivity].
  - rewrite not_elem_of_cons. destruct (decide (alias g = a)) as [Hg|Hg].
    + split; [discriminate | intros [? _]; congruence].
    + rewrite IH. split; [intros ?; split; [congruence | done] | intros [_ ?]; done].
Qed.

Lemma get_serializer_field_unknown (cls : BaseSerializer) (a : string) :
  get_serializer_field cls a = Raise (UnknownSerializerField a)
  <-> a ∉ List.map alias (fields cls).
Proof.
  unfold get_serializer_field.
  rewrite <- find_alias_None. destruct (find_alias (fields cls) a); split;
    (discriminate || reflexivity).
Qed.

(** [get_serializer_field] raises exactly for the aliases no field of the
    serializer has; the field it returns is one of the serializer and has
    the alias asked for.  [get_db_field] never answers "Unknown db model
    field" for the name such a field stores: it returns the attribute of
    that name when the model defines one, and raises [KeyError] when it
    does not. *)
Theorem get_serializer_field_lookup (cls : BaseSerializer) (a : string) :
  (get_serializer_field cls a = Raise (UnknownSerializerField a)
   <-> a ∉ List.map alias (fields cls))
  /\ forall sf, get_serializer_field cls a = Ok sf ->
       sf ∈ fields cls /\ alias sf = a
       /\ get_db_field cls (field sf)
          = if bool_decide (field sf ∈ model_dict cls)
            then Ok (Column (ser_model cls) (field sf))
            else Raise (KeyError (field sf)).
Proof.
  split; [apply get_serializer_field_unknown |].
  unfold get_serializer_field.
  intros sf H. destruct (find_alias (fields cls) a) as [f|] eqn:Hf; [| discriminate].
  injection H as ->. apply find_alias_Some in Hf as [Ha Hin].
  split; [done |]. split; [done |].
  apply get_db_field_stored. by apply elem_of_map_field.
Qed.

(** A serializer that lists a field its model does not define: the alias is
    found and the lookup of the attribute is a [KeyError]. *)
Lemma get_serializer_field_lookup_witness :
  let cls :=
    {| ser_model := "author"; model_dict := ["id"; "name"];
       fields := [new_SerializerField "id" None;
                  new_SerializerField "surname" (Some "last")] |} in
  let sf := new_SerializerField "surname" (Some "last") in
  get_serializer_field cls "last" = Ok sf
  /\ sf ∈ fields cls
  /\ alias sf = "last"
  /\ get_db_field cls (field sf) = Raise (KeyError "surname").
Proof.
  cbv zeta. split; [reflexivity |].
  apply (proj2 (get_serializer_field_lookup
                  {| ser_model := "author"; model_dict := ["id"; "name"];
                     fields := [new_SerializerField "id" None;
                                new_SerializerField "surname" (Some "last")] |}
                  "last")).
  reflexivity.
Defined.

(** ** The registry *)

(** Registration keeps every serializer under its own model, so that a
    lookup by model returns a serializer for that model; then
    [get_prop_serializer] reads the relationship off the model it is asked
    about: it raises [AttributeError] for a model without serializer and
    [KeyError] for a name that is no relationship of the model, and otherwise
    returns what the registry has for the entity of the relationship,
    [None] when that entity has no serializer. *)
Theorem registry_keeps_models (w : World) (cls : BaseSerializer) :
  registry_ok w ->
  registry_ok (init_subclass cls w)
  /\ forall (m : model) (prop : string),
       get_prop_serializer w m prop
       = match serializers w !! m with
         | None => Raise (AttributeError "get_model_inspection")
         | Some _ =>
             match relationships (inspect w m) !! prop with
             | None => Raise (KeyError prop)
             | Some rel => Ok (serializers w !! rel_entity rel)
             end
         end.
Proof.
  intros Hok. split.
  - intros m c. unfold init_subclass. simpl. rewrite lookup_insert.
    case_decide as Hm; [| apply Hok]. by intros [= <-].
  - intros m prop. unfold get_prop_serializer, get_serializer, get_model_inspection.
    destruct (serializers w !! m) as [c|] eqn:Hc; [| reflexivity].
    simpl. rewrite (Hok m c Hc). unfold getitem.
    by destruct (relationships (inspect w m) !! prop).
Qed.

Lemma registry_ok_empty (d : RelationshipDirection) : registry_ok (Library.empty_world d).
Proof. intros m cls H. unfold Library.empty_world in H. simpl in H. by rewrite lookup_empty in H. Qed.

Lemma registry_keeps_models_witness :
  registry_ok (Library.empty_world ONETOMANY)
  /\ registry_ok (init_subclass Library.AuthorSerializer (Library.empty_world ONETOMANY))
  /\ get_prop_serializer (Library.empty_world ONETOMANY) "author" "books"
     = Raise (AttributeError "get_model_inspection").
Proof.
  split; [apply registry_ok_empty |].
  destruct (registry_keeps_models (Library.empty_world ONETOMANY)
              Library.AuthorSerializer (registry_ok_empty ONETOMANY)) as [H1 H2].
  split; [exact H1 |]. rewrite H2. reflexivity.
Defined.

(** A relation to an entity without a registered serializer is not
    reported by [get_prop_serializer]: it hands [None] to
    [_relation_select], whose first method call on it is then an
    [AttributeError], whatever the specification of the relation. *)
Theorem relation_without_serializer_raises (w : World) (bound : nat)
    (name : string) (tree : ActionTree) (rest : list (string * ActionTree))
    (serializer : BaseSerializer) (id_field : expr) (sf : SerializerField)
    (rel : Relationship) :
  get_serializer_field serializer name = Ok sf ->
  relationships (get_model_inspection w serializer) !! field sf = Some rel ->
  get_prop_serializer w (ser_model serializer) (field sf) = Ok None ->
  _resolve_relationships w (_relation_select (S bound) w) ((name, tree) :: rest)
    serializer id_field
  = Raise (AttributeError "get_model_inspection").
Proof.
  intros Hsf Hrel Hrs. simpl. rewrite Hsf. simpl. unfold getitem. rewrite Hrel. simpl.
  rewrite Hrs. simpl. by destruct (primaryjoin rel).
Qed.

Lemma relation_without_serializer_raises_witness :
  let w := init_subclass Library.AuthorSerializer (Library.empty_world ONETOMANY) in
  let sf := new_SerializerField "books" None in
  get_serializer_field Library.AuthorSerializer "books" = Ok sf
  /\ relationships (get_model_inspection w Library.AuthorSerializer) !! field sf
     = Some (Library.books ONETOMANY)
  /\ get_prop_serializer w "author" (field sf) = Ok None
  /\ _resolve_relationships w (_relation_select 1 w)
       [("books", mkActionTree (Some ["title"]) [] None [] None None)]
       Library.AuthorSerializer (Col Library.author_id)
     = Raise (AttributeError "get_model_inspection").
Proof.
  cbv zeta. split; [reflexivity |]. split; [reflexivity |]. split; [reflexivity |].
  apply (relation_without_serializer_raises _ 0 "books" _ [] _ _
           (new_SerializerField "books" None) (Library.books ONETOMANY));
    reflexivity.
Defined.

(** ** Exclusions that raise *)

Lemma list_remove_absent (x : SerializerField) (l : list SerializerField) :
  x ∉ l -> list_remove x l = Raise ValueError.
Proof.
  induction l as [|y l IH]; simpl; [reflexivity |].
  rewrite not_elem_of_cons. intros [Hxy Hl].
  rewrite decide_False by congruence. by rewrite IH.
Qed.

Lemma non_relation_fields_elem (w : World) (cls : BaseSerializer) (f : SerializerField) :
  f ∈ non_relation_fields w cls
  <-> f ∈ fields cls /\ relationships (get_model_inspection w cls) !! field f = None.
Proof.
  unfold non_relation_fields.
  rewrite list_elem_of_In, filter_In, <- list_elem_of_In, bool_decide_eq_true.
  reflexivity.
Qed.

Lemma startswith_exclusion (a : string) :
  startswith ("!" +:+ a) EXCLUDE_COLUMN_PREFIX = true.
Proof.
  unfold startswith, EXCLUDE_COLUMN_PREFIX. simpl. by destruct a.
Qed.

(** An exclusion entry raises [ValueError] when the alias it names is the
    one of a relation, and the exception of [get_serializer_field] when no
    field has the alias; what follows it in the select list is then never
    looked at. *)
Theorem exclusion_entry_raises (w : World) (cls : BaseSerializer) (a : string)
    (rest : list string) (start : list SerializerField) :
  (forall sf, get_serializer_field cls a = Ok sf ->
     is_Some (relationships (get_model_inspection w cls) !! field sf) ->
     exclude_columns w cls (("!" +:+ a) :: rest) start = Raise ValueError)
  /\ (a ∉ List.map alias (fields cls) ->
      exclude_columns w cls (("!" +:+ a) :: rest) start
      = Raise (UnknownSerializerField a)).
Proof.
  assert (Hstep : exclude_columns w cls (("!" +:+ a) :: rest) start
                  = let! excluded := get_serializer_field cls a in
                    let! remaining := list_remove excluded (non_relation_fields w cls) in
                    exclude_columns w cls rest remaining).
  { cbn [exclude_columns]. by rewrite startswith_exclusion. }
  rewrite Hstep. split.
  - intros sf Hsf [rel Hrel]. rewrite Hsf. simpl.
    rewrite list_remove_absent; [reflexivity |].
    rewrite non_relation_fields_elem. intros [_ Hnone]. congruence.
  - intros Ha.
    apply get_serializer_field_unknown in Ha. by rewrite Ha.
Qed.

Lemma exclusion_entry_raises_witness :
  let w := Library.world ONETOMANY in
  get_serializer_field Library.AuthorSerializer "books"
  = Ok (new_SerializerField "books" None)
  /\ is_Some (relationships (get_model_inspection w Library.AuthorSerializer)
              !! field (new_SerializerField "books" None))
  /\ exclude_columns w Library.AuthorSerializer ["!books"; "!name"] [] = Raise ValueError.
Proof.
  cbv zeta. split; [reflexivity |].
  assert (H : is_Some (relationships
                         (get_model_inspection (Library.world ONETOMANY)
                            Library.AuthorSerializer)
                       !! field (new_SerializerField "books" None))).
  { eexists. reflexivity. }
  split; [exact H |].
  apply (proj1 (exclusion_entry_raises (Library.world ONETOMANY)
                  Library.AuthorSerializer "books" ["!name"] [])
           (new_SerializerField "books" None) eq_refl H).
Defined.

(** A comprehension stops at the first element that raises. *)
Lemma traverse_first_Raise {A B : Type} (f : A -> result B) (pre post : list A)
    (a : A) (e : error) :
  Forall (fun x => exists y, f x = Ok y) pre -> f a = Raise e ->
  traverse f (pre ++ a :: post) = Raise e.
Proof.
  intros Hpre Ha. induction Hpre as [|x pre [y Hy] _ IH]; simpl.
  - by rewrite Ha.
  - by rewrite Hy, IH.
Qed.

Lemma get_serializer_field_known (cls : BaseSerializer) (a : string) :
  a ∈ List.map alias (fields cls) -> exists sf, get_serializer_field cls a = Ok sf.
Proof.
  intros Ha. unfold get_serializer_field.
  destruct (find_alias (fields cls) a) as [f|] eqn:Hf; [by exists f |].
  by apply find_alias_None in Hf.
Qed.

(** In a relation the entries of a select list without the wildcard are
    all looked up as aliases, the exclusion entries too ([_json_query] skips
    them at this point, [_relation_select] does not): [_relation_select]
    raises for the first entry of the list that is no alias of the entity,
    before any exclusion is applied. *)
Theorem relation_select_list_is_all_aliases (bound : nat) (w : World)
    (action : ActionTree) (cls : BaseSerializer) (parent_model : model)
    (rel : Relationship) (pre post : list string) (first : string) :
  truthy_select (select action) = Some (pre ++ first :: post) ->
  WILDCARD ∉ pre ++ first :: post ->
  Forall (fun entry => entry ∈ List.map alias (fields cls)) pre ->
  first ∉ List.map alias (fields cls) ->
  _relation_select (S bound) w action (Some cls) parent_model rel
  = Raise (UnknownSerializerField first).
Proof.
  intros Hsel Hwild Hpre Hfirst.
  assert (Hbase : forall pc hp,
            relation_select_base w action cls rel pc hp
            = Raise (UnknownSerializerField first)).
  { intros pc hp. unfold relation_select_base. rewrite Hsel.
    rewrite bool_decide_eq_false_2 by done.
    rewrite (traverse_first_Raise _ pre post first (UnknownSerializerField first));
      [reflexivity | | by apply get_serializer_field_unknown].
    eapply Forall_impl; [exact Hpre |]. intros entry.
    apply get_serializer_field_known. }
  simpl. destruct (primaryjoin rel) as [left right]. simpl.
  destruct (bool_decide (left ∈ columns (get_model_inspection w cls)));
    by rewrite Hbase.
Qed.

(** The select list [["id"; "!title"]] of a relation to [Book]: the root
    compiler would skip the exclusion entry here, [_relation_select] looks
    it up as an alias and raises. *)
Lemma relation_select_list_is_all_aliases_witness :
  let w := Library.world ONETOMANY in
  let action := mkActionTree (Some ["id"; "!title"]) [] None [] None None in
  truthy_select (select action) = Some (["id"] ++ "!title" :: [])
  /\ json_query_field_to_select w Library.BookSerializer ["id"; "!title"]
     = Ok [new_SerializerField "id" None; new_SerializerField "author_id" None]
  /\ _relation_select 1 w action (Some Library.BookSerializer) "author"
       (Library.books ONETOMANY)
     = Raise (UnknownSerializerField "!title").
Proof.
  cbv zeta. split; [reflexivity |]. split; [vm_compute; reflexivity |].
  apply (relation_select_list_is_all_aliases 0 (Library.world ONETOMANY)
           (mkActionTree (Some ["id"; "!title"]) [] None [] None None)
           Library.BookSerializer "author" (Library.books ONETOMANY)
           ["id"] [] "!title").
  - reflexivity.
  - intros H. apply elem_of_cons in H as [H | H]; [discriminate |].
    apply list_elem_of_singleton in H. discriminate.
  - constructor; [left | constructor].
  - intros H. repeat (apply elem_of_cons in H as [H | H]; [discriminate |]).
    by apply elem_of_nil in H.
Defined.

(** ** The statement of [_json_query], part by part *)

Lemma json_query_filters_direct (cls : BaseSerializer) (flts : list FilterAction)
    (st st' : filter_state) :
  json_query_filters cls flts st = Ok st' ->
  exists criteria,
    snd (fst st') = snd (fst st) ++ criteria
    /\ Forall2
         (fun f e =>
            exists sf,
              get_serializer_field_of cls (flt_field f) = Ok sf
              /\ e = Operator (operator f) (Col (Column (ser_model cls) (field sf)))
                       (flt_value f))
         (direct flts) criteria.
Proof.
  revert st. induction flts as [|f flts IH]; intros [[rels fl] inner] H; simpl in H.
  - injection H as <-. exists []. simpl. rewrite app_nil_r. split; [done | constructor].
  - unfold direct. simpl. destruct (is_nested (flt_field f)) eqn:Hn; simpl.
    + apply IH in H as (criteria & Heq & Hall). exists criteria. by split.
    + apply bind_Ok in H as (sf & Hsf & H). apply bind_Ok in H as (c & Hc & H).
      apply IH in H as (criteria & Heq & Hall). simpl in Heq.
      exists (Operator (operator f) (Col c) (flt_value f) :: criteria).
      split; [by rewrite Heq, <- app_assoc |].
      constructor; [| exact Hall]. exists sf. split; [done |].
      by apply get_db_field_Ok in Hc as ->.
Qed.

(** A successful run of [_json_query], with the loops that
    [json_query_statement_Ok] leaves out. *)
Lemma json_query_statement_run (w : World) (qo qo' : ActionTree)
    (cls : BaseSerializer) (q : statement) :
  json_query_statement w qo cls = Ok (q, qo') ->
  exists rels inner js relfs hidden q1 q2 rels',
    json_query_filters cls (filters qo) (relations qo, [], [])
    = Ok (rels, where_criteria q, inner)
    /\ _resolve_relationships w (_relation_select (weight qo) w) rels cls
         (Col (model_id (ser_model cls))) = Ok (relfs, js, rels')
    /\ traverse (fun r => hidden_join_column w cls (fst r)) rels' = Ok hidden
    /\ order_by_clauses q1 = []
    /\ json_query_sort w cls (sort qo) q1 rels' = Ok (q2, relations qo')
    /\ order_by_clauses q = order_by_clauses q2.
Proof.
  unfold json_query_statement. intros H.
  apply bind_Ok in H as (sel & Hsel & H).
  apply bind_Ok in H as (fts & Hfts & H).
  apply bind_Ok in H as (json_fields & Hjson & H).
  apply bind_Ok in H as (hidden0 & Hhidden0 & H).
  apply bind_Ok in H as ([[rels1 wh] inner] & Hflt & H).
  apply bind_Ok in H as ([[relfs js] rels] & Hres & H).
  apply bind_Ok in H as (hidden & Hhidden & H).
  apply bind_Ok in H as ([q2 rels'] & Hsort & H).
  apply bind_Ok in H as (id & Hid & H).
  injection H as <- <-.
  set (q1 := match wh with [] => _ | _ :: _ => _ end) in *.
  assert (Hq1 : where_criteria q1 = wh /\ order_by_clauses q1 = []).
  { unfold q1. rewrite join_relations_eq. by destruct wh. }
  destruct Hq1 as [Hwh Hob].
  pose proof Hsort as Hsort'.
  apply json_query_sort_Ok in Hsort' as (Hq2 & _ & _).
  assert (Hwh2 : where_criteria q2 = wh).
  { destruct Hq2 as [-> | [e ->]]; exact Hwh. }
  exists rels1, inner, js, relfs, hidden, q1, q2, rels.
  assert (Hfinal : forall o l (s0 : statement),
            where_criteria
              (Sql.group_by
                 match l with
                 | Some n => Sql.limit match o with Some n0 => Sql.offset s0 n0 | None => s0 end n
                 | None => match o with Some n0 => Sql.offset s0 n0 | None => s0 end
                 end (Col id)) = where_criteria s0
            /\ order_by_clauses
                 (Sql.group_by
                    match l with
                    | Some n => Sql.limit match o with Some n0 => Sql.offset s0 n0 | None => s0 end n
                    | None => match o with Some n0 => Sql.offset s0 n0 | None => s0 end
                    end (Col id)) = order_by_clauses s0).
  { intros [?|] [?|] s0; split; reflexivity. }
  destruct (Hfinal (truthy_int (offset qo)) (truthy_int (limit qo)) q2) as [Hw Ho].
  rewrite Hw, Hwh2, Ho. simpl. repeat split; done.
Qed.

(** The direct filters of the root specification are the WHERE criteria of
    its statement, one comparison each, in their order, on the attribute of
    the model that the alias of the filter resolves to; the dotted filters
    add no criterion to it. *)
Theorem root_where_criteria (w : World) (qo qo' : ActionTree) (cls : BaseSerializer)
    (q : statement) :
  json_query_statement w qo cls = Ok (q, qo') ->
  Forall2
    (fun f e =>
       exists sf,
         get_serializer_field_of cls (flt_field f) = Ok sf
         /\ e = Operator (operator f) (Col (Column (ser_model cls) (field sf)))
                  (flt_value f))
    (direct (filters qo)) (where_criteria q).
Proof.
  intros H. apply json_query_statement_run in H
    as (rels & inner & js & relfs & hidden & q1 & q2 & rels' & Hflt & _).
  apply json_query_filters_direct in Hflt as (criteria & Heq & Hall).
  simpl in Heq. by rewrite Heq.
Qed.

Lemma root_where_criteria_witness :
  let w := Library.world ONETOMANY in
  let qo :=
    mkActionTree (Some ["name"])
      [Library.title_is ["books"; "title"] "X"; Library.title_is ["name"] "Ann"]
      None [] None None in
  exists q qo',
    json_query_statement w qo Library.AuthorSerializer = Ok (q, qo')
    /\ where_criteria q = [Operator "eq" (Col (Column "author" "name")) (VStr "Ann")]
    /\ Forall2
         (fun f e =>
            exists sf,
              get_serializer_field_of Library.AuthorSerializer (flt_field f) = Ok sf
              /\ e = Operator (operator f)
                       (Col (Column (ser_model Library.AuthorSerializer) (field sf)))
                       (flt_value f))
         (direct (filters qo)) (where_criteria q).
Proof.
  cbv zeta. eexists _, _. split; [vm_compute; reflexivity |]. split; [reflexivity |].
  eapply (root_where_criteria (Library.world ONETOMANY)
            (mkActionTree (Some ["name"])
               [Library.title_is ["books"; "title"] "X"; Library.title_is ["name"] "Ann"]
               None [] None None)).
  vm_compute. reflexivity.
Defined.

(** A sort of the root specification on a plain field orders the statement
    by the attribute the alias resolves to, descending for [SortOrder.DESC]
    and ascending otherwise, and by nothing else; it adds no entry to
    [relations]. *)
Theorem root_plain_sort (w : World) (qo qo' : ActionTree) (cls : BaseSerializer)
    (q : statement) (s : SortAction) (name : string) :
  json_query_statement w qo cls = Ok (q, qo') ->
  sort qo = Some s -> sort_field s = [name] ->
  exists sf,
    get_serializer_field cls name = Ok sf
    /\ order_by_clauses q = [ordering (order s) (Column (ser_model cls) (field sf))]
    /\ List.map fst (relations qo')
       = List.map fst (pushed_relations None (relations qo) (filters qo)).
Proof.
  intros H Hs Hname. apply json_query_statement_run in H
    as (rels & inner & js & relfs & hidden & q1 & q2 & rels' & Hflt & Hres & _
        & Hob & Hsort & ->).
  apply json_query_filters_Ok in Hflt as [-> _].
  rewrite Hs in Hsort. unfold json_query_sort in Hsort. rewrite Hname in Hsort.
  apply bind_Ok in Hsort as (sf & Hsf & Hsort).
  apply bind_Ok in Hsort as (c & Hc & Hsort). injection Hsort as <- <-.
  apply get_db_field_Ok in Hc as ->.
  exists sf. split; [done |]. simpl. rewrite Hob. split; [done |].
  apply resolve_relationships_Ok in Hres as [_ Hres].
  clear -Hres. induction Hres as [|r r' l l' [Hk _] _ IH]; simpl; [done |].
  by rewrite Hk, IH.
Qed.

Lemma root_plain_sort_witness :
  let w := Library.world ONETOMANY in
  let s := {| sort_field := ["name"]; order := DESC |} in
  let qo := mkActionTree (Some ["name"]) [] (Some s) [] None None in
  exists q qo',
    json_query_statement w qo Library.AuthorSerializer = Ok (q, qo')
    /\ sort qo = Some s /\ sort_field s = ["name"]
    /\ order_by_clauses q = [Desc (Col (Column "author" "name"))]
    /\ exists sf,
         get_serializer_field Library.AuthorSerializer "name" = Ok sf
         /\ order_by_clauses q
            = [ordering (order s) (Column (ser_model Library.AuthorSerializer) (field sf))]
         /\ List.map fst (relations qo')
            = List.map fst (pushed_relations None (relations qo) (filters qo)).
Proof.
  cbv zeta. eexists _, _. split; [vm_compute; reflexivity |].
  split; [reflexivity |]. split; [reflexivity |]. split; [reflexivity |].
  eapply (root_plain_sort (Library.world ONETOMANY)
            (mkActionTree (Some ["name"]) []
               (Some {| sort_field := ["name"]; order := DESC |}) [] None None)
            _ Library.AuthorSerializer _ {| sort_field := ["name"]; order := DESC |} "name");
    [vm_compute; reflexivity | reflexivity | reflexivity].
Defined.

Lemma resolved_names (w : World) (compile : relation_compiler)
    (rels : list (string * ActionTree)) (cls : BaseSerializer) (id_field : expr)
    (fs : list expr) (js : list relation_join) (rels' : list (string * ActionTree)) :
  _resolve_relationships w compile rels cls id_field = Ok (fs, js, rels') ->
  List.map fst rels' = List.map fst rels
  /\ List.map (fun j => fst (fst j)) js = List.map fst rels
  /\ json_keys fs = List.map Text (embedded_names rels)
  /\ Forall
       (fun r =>
          exists sf rel,
            get_serializer_field cls (fst r) = Ok sf
            /\ relationships (get_model_inspection w cls) !! field sf = Some rel)
       rels.
Proof.
  revert fs js rels'. induction rels as [|[name tree] rest IH]; intros fs js rels' H.
  - simpl in H. injection H as <- <- <-. repeat split; constructor.
  - apply resolve_relationships_cons in H
      as (sf & rel & rs & cte & tree' & vs & fs0 & js0 & rels0
          & Hsf & Hrel & _ & _ & Hvs & Hrest & -> & -> & ->).
    apply IH in Hrest as (Hk & Hj & Hkeys & Hall). simpl. rewrite Hk, Hj.
    split; [done |]. split; [done |]. split; [| constructor; eauto].
    unfold embedded_names. simpl. destruct (select tree) as [sel|].
    + destruct Hvs as (v & _ & ->). simpl. by rewrite Hkeys.
    + subst vs. simpl. exact Hkeys.
Qed.

(** At the root the name of a relation is used twice: as an alias of the
    serializer, whose field names the relationship to compile, and, for the
    join column, directly as a key of the relationships of the model.  A
    root specification therefore only compiles when every relation it
    declares or reaches through a dotted filter is known under both. *)
Theorem root_relation_names (w : World) (qo qo' : ActionTree) (cls : BaseSerializer)
    (q : statement) (name : string) :
  json_query_statement w qo cls = Ok (q, qo') ->
  name ∈ List.map fst (pushed_relations None (relations qo) (filters qo)) ->
  is_Some (relationships (get_model_inspection w cls) !! name)
  /\ exists sf rel,
       get_serializer_field cls name = Ok sf
       /\ relationships (get_model_inspection w cls) !! field sf = Some rel.
Proof.
  intros H Hin. apply json_query_statement_run in H
    as (rels & inner & js & relfs & hidden & q1 & q2 & rels' & Hflt & Hres & Hhidden & _).
  apply json_query_filters_Ok in Hflt as [-> _].
  apply resolved_names in Hres as (Hk & _ & _ & Hall).
  rewrite <- Hk in Hin. split.
  - clear -Hhidden Hin. revert hidden Hhidden.
    induction rels' as [|r rels' IH]; intros hidden Hhidden; simpl in *.
    + by apply elem_of_nil in Hin.
    + apply bind_Ok in Hhidden as (h & Hh & Hhidden).
      apply bind_Ok in Hhidden as (hs & Hhs & _).
      apply elem_of_cons in Hin as [-> | Hin]; [| eauto].
      unfold hidden_join_column, getitem in Hh.
      destruct (relationships (get_model_inspection w cls) !! r.1); [eauto | discriminate].
  - rewrite Hk in Hin. rewrite Forall_forall in Hall.
    apply list_elem_of_In, in_map_iff in Hin as ([n t] & <- & Hin).
    apply list_elem_of_In, Hall in Hin. exact Hin.
Qed.

Lemma root_relation_names_witness :
  let w := Library.world ONETOMANY in
  let qo :=
    mkActionTree (Some ["name"]) [Library.title_is ["books"; "title"] "X"]
      None [] None None in
  exists q qo',
    json_query_statement w qo Library.AuthorSerializer = Ok (q, qo')
    /\ "books" ∈ List.map fst (pushed_relations None (relations qo) (filters qo))
    /\ is_Some (relationships (get_model_inspection w Library.AuthorSerializer) !! "books")
    /\ exists sf rel,
         get_serializer_field Library.AuthorSerializer "books" = Ok sf
         /\ relationships (get_model_inspection w Library.AuthorSerializer) !! field sf
            = Some rel.
Proof.
  cbv zeta. eexists _, _. split; [vm_compute; reflexivity |]. split; [left |].
  eapply (root_relation_names (Library.world ONETOMANY)
            (mkActionTree (Some ["name"]) [Library.title_is ["books"; "title"] "X"]
               None [] None None));
    [vm_compute; reflexivity | left].
Defined.

Lemma json_keys_pairs (key : SerializerField -> string)
    (f : SerializerField -> result (list expr))
    (l : list SerializerField) (pairs : list (list expr)) (rest : list expr) :
  (forall a p, f a = Ok p -> exists v, p = [Text (key a); v]) ->
  traverse f l = Ok pairs ->
  json_keys (concat pairs ++ rest) = List.map (fun a => Text (key a)) l ++ json_keys rest.
Proof.
  intros Hf. revert pairs. induction l as [|a l IH]; intros pairs H; simpl in H.
  - by injection H as <-.
  - apply bind_Ok in H as (p & Hp & H). apply bind_Ok in H as (ps & Hps & H).
    injection H as <-. apply Hf in Hp as (v & ->).
    simpl. by rewrite (IH _ Hps).
Qed.

(** The keys of the JSON object of a root row are the aliases of the
    selected fields, in the order of selection, followed by the names of the
    relations whose specification has a [select], in the order of
    [relations].  A relation whose [select] is [None], as the root creates
    them for dotted filters, is joined and has no key in the object. *)
Theorem root_json_keys (w : World) (qo qo' : ActionTree) (cls : BaseSerializer)
    (q : statement) :
  json_query_statement w qo cls = Ok (q, qo') ->
  exists sel fts args hidden,
    select qo = Some sel
    /\ json_query_field_to_select w cls sel = Ok fts
    /\ raw_columns q = Label (Func "json_object" args) "sql_rest" :: hidden
    /\ json_keys args
       = List.map (fun f => Text (alias f)) fts
         ++ List.map Text
              (embedded_names (pushed_relations None (relations qo) (filters qo)))
    /\ length (joins q)
       = length (pushed_relations None (relations qo) (filters qo)).
Proof.
  intros H. apply json_query_statement_Ok in H
    as (sel & fts & jf & hidden & relfs & js & rels & rels' & wh & obs
        & Hsel & Hfts & Hjf & Hres & _ & _ & -> & _).
  apply resolved_names in Hres as (_ & Hj & Hkeys & _).
  eexists sel, fts, _, _. split; [done |]. split; [done |]. split; [reflexivity |].
  split.
  - assert (Hpair : forall a p,
              (let! c := get_db_field cls (field a) in Ok [Text (alias a); Col c]) = Ok p ->
              exists v, p = [Text (alias a); v]).
    { intros a p Hp. apply bind_Ok in Hp as (c & _ & Hp). injection Hp as <-. eauto. }
    by rewrite (json_keys_pairs alias _ _ _ _ Hpair Hjf), Hkeys.
  - simpl. rewrite length_map. apply (f_equal length) in Hj.
    by rewrite !length_map in Hj.
Qed.

Lemma root_json_keys_witness :
  let w := Library.world ONETOMANY in
  let qo :=
    mkActionTree (Some ["name"; "age"]) [Library.title_is ["books"; "title"] "X"]
      None [] None None in
  exists q qo' args hidden,
    json_query_statement w qo Library.AuthorSerializer = Ok (q, qo')
    /\ raw_columns q = Label (Func "json_object" args) "sql_rest" :: hidden
    /\ json_keys args = [Text "name"; Text "age"]
    /\ length (joins q) = 1.
Proof.
  cbv zeta. eexists _, _, _, _. split; [vm_compute; reflexivity |].
  split; [reflexivity |].
  destruct (root_json_keys (Library.world ONETOMANY)
              (mkActionTree (Some ["name"; "age"])
                 [Library.title_is ["books"; "title"] "X"] None [] None None)
              _ Library.AuthorSerializer _ ltac:(vm_compute; reflexivity))
    as (sel & fts & args & hidden & Hsel & Hfts & Hcols & Hkeys & Hlen).
  injection Hsel as <-. vm_compute in Hfts. injection Hfts as <-.
  injection Hcols as <- <-. split; [exact Hkeys | exact Hlen].
Defined.

(** ** What compilation does to the specification *)

Lemma keys_dict_set {A : Type} (d : list (string * A)) (k : string) (a : A) :
  List.map fst (dict_set d k a)
  = List.map fst d ++ (if bool_decide (k ∈ List.map fst d) then [] else [k]).
Proof.
  induction d as [|[k0 b] d IH]; simpl.
  - reflexivity.
  - destruct (decide (k0 = k)) as [->|Hk]; simpl.
    + rewrite bool_decide_eq_true_2 by left. by rewrite app_nil_r.
    + rewrite IH. do 2 f_equal.
      assert (Hiff : bool_decide (k ∈ List.map fst d)
                     = bool_decide (k ∈ k0 :: List.map fst d)).
      { apply bool_decide_ext. rewrite elem_of_cons. split; [tauto |].
        intros [? | ?]; [congruence | done]. }
      by rewrite Hiff.
Qed.

Lemma keys_extend_refl {A : Type} (d : list (string * A)) : keys_extend d d.
Proof. split; [exists []; by rewrite app_nil_r | done]. Qed.

Lemma keys_extend_trans {A : Type} (d1 d2 d3 : list (string * A)) :
  keys_extend d1 d2 -> keys_extend d2 d3 -> keys_extend d1 d3.
Proof.
  intros [[e1 H1] N1] [[e2 H2] N2]. split; [| auto].
  exists (e1 ++ e2). by rewrite H2, H1, <- app_assoc.
Qed.

Lemma keys_extend_same {A : Type} (d d' : list (string * A)) :
  List.map fst d' = List.map fst d -> keys_extend d d'.
Proof. intros H. split; [exists []; by rewrite app_nil_r | by rewrite H]. Qed.

Lemma keys_extend_dict_set {A : Type} (d : list (string * A)) (k : string) (a : A) :
  keys_extend d (dict_set d k a).
Proof.
  split; [eexists; apply keys_dict_set |].
  rewrite keys_dict_set. intros Hnd. case_bool_decide as Hk.
  - by rewrite app_nil_r.
  - apply NoDup_app. split; [done |]. split; [| apply NoDup_singleton].
    intros x Hx Hxk. apply list_elem_of_singleton in Hxk. by subst.
Qed.

Lemma keys_extend_pushed (synthesized : option (list string))
    (flts : list FilterAction) (rels : list (string * ActionTree)) :
  keys_extend rels (pushed_relations synthesized rels flts).
Proof.
  unfold pushed_relations. generalize (dotted flts). intros fs. revert rels.
  induction fs as [|f fs IH]; intros rels; simpl; [apply keys_extend_refl |].
  eapply keys_extend_trans; [| apply IH]. apply keys_extend_dict_set.
Qed.

Lemma keys_extend_sort_walk (w : World) (cls : BaseSerializer) (s : SortAction)
    (stack : list string) (q q' : statement) (rels rels' : list (string * ActionTree)) :
  sort_walk w cls s stack q rels = Ok (q', rels') -> keys_extend rels rels'.
Proof.
  revert rels. induction stack as [|current rest IH]; intros rels H; simpl in H.
  - injection H as <- <-. apply keys_extend_refl.
  - destruct rest as [|next rest'].
    + inv_ok H. injection H as <- <-. apply keys_extend_dict_set.
    + inv_ok H. apply IH in H.
      eapply keys_extend_trans; [apply keys_extend_dict_set | exact H].
Qed.

Lemma keys_extend_json_query_sort (w : World) (cls : BaseSerializer)
    (qo_sort : option SortAction) (q q' : statement)
    (rels rels' : list (string * ActionTree)) :
  json_query_sort w cls qo_sort q rels = Ok (q', rels') -> keys_extend rels rels'.
Proof.
  unfold json_query_sort. intros H. destruct qo_sort as [s|].
  - destruct (sort_field s) as [|name [|name' path]] eqn:Hp;
      try (rewrite <- Hp in H; by apply keys_extend_sort_walk in H).
    inv_ok H. injection H as <- <-. apply keys_extend_refl.
  - injection H as <- <-. apply keys_extend_refl.
Qed.

(** Compilation changes nothing of a specification but [relations], and
    there it keeps every key in its place: the relations the specification
    had come first, in their order, then those compilation has created; and
    when no key was there twice, none is afterwards.  This holds for
    [_json_query] and for [_relation_select]. *)
Theorem compilation_keeps_relations :
  (forall (w : World) (qo qo' : ActionTree) (cls : BaseSerializer) (q : statement),
      json_query_statement w qo cls = Ok (q, qo') ->
      keys_extend (relations qo) (relations qo')
      /\ qo' = set_relations qo (relations qo'))
  /\ (forall (bound : nat) (w : World) (action action' : ActionTree)
        (s : option BaseSerializer) (parent_model : model) (rel : Relationship)
        (t : selectable),
        _relation_select bound w action s parent_model rel = Ok (t, action') ->
        keys_extend (relations action) (relations action')
        /\ action' = set_relations action (relations action')
        /\ List.map fst (relations action')
           = List.map fst
               (pushed_relations (Some ["id"]) (relations action) (filters action))).
Proof.
  split.
  - intros w qo qo' cls q H. pose proof H as Hrun.
    apply json_query_statement_Ok in H
      as (? & ? & ? & ? & ? & ? & ? & ? & ? & ? & _ & _ & _ & _ & _ & _ & _ & ->).
    split; [| reflexivity].
    apply json_query_statement_run in Hrun
      as (rels & inner & js & relfs & hidden & q1 & q2 & rels' & Hflt & Hres & _ & _
          & Hsort & _).
    apply json_query_filters_Ok in Hflt as [-> _].
    apply resolved_names in Hres as (Hk & _).
    apply keys_extend_json_query_sort in Hsort.
    eapply keys_extend_trans; [apply keys_extend_pushed |].
    eapply keys_extend_trans; [apply keys_extend_same, Hk | exact Hsort].
  - intros bound w action action' s parent_model rel t H.
    destruct bound; [discriminate |].
    apply relation_select_Ok in H
      as (ser & pc & hp & q0 & fts & obs & jf & relfs & js & rels & key & prelude & wh
          & _ & _ & _ & _ & Hres & _ & _ & ->).
    apply resolved_names in Hres as (Hk & _). simpl.
    split; [| split; [reflexivity | exact Hk]].
    eapply keys_extend_trans; [apply keys_extend_pushed | apply keys_extend_same, Hk].
Qed.

Lemma compilation_keeps_relations_witness :
  let w := Library.world ONETOMANY in
  let qo :=
    mkActionTree (Some ["title"]) [Library.title_is ["author"; "name"] "Ann"]
      None [] None None in
  exists q qo',
    json_query_statement w qo Library.BookSerializer = Ok (q, qo')
    /\ List.map fst (relations qo') = ["author"]
    /\ keys_extend (relations qo) (relations qo')
    /\ qo' = set_relations qo (relations qo').
Proof.
  cbv zeta. eexists _, _. split; [vm_compute; reflexivity |]. split; [reflexivity |].
  eapply (proj1 compilation_keeps_relations (Library.world ONETOMANY)
            (mkActionTree (Some ["title"]) [Library.title_is ["author"; "name"] "Ann"]
               None [] None None) _ Library.BookSerializer).
  vm_compute. reflexivity.
Defined.

Lemma json_query_pushed_entry (w : World) (qo qo' : ActionTree) (cls : BaseSerializer)
    (q : statement) (f : FilterAction) :
  json_query_statement w qo cls = Ok (q, qo') ->
  f ∈ filters qo -> is_nested (flt_field f) = true ->
  exists t,
    dict_get (relations qo') (first_segment (flt_field f)) = Some t
    /\ pushed_entry None (relations qo) (filters qo) (first_segment (flt_field f)) t.
Proof.
  intros H Hf Hn.
  apply json_query_statement_Ok in H
    as (sel & fts & jf & hidden & relfs & js & rels & rels' & wh & obs
        & _ & _ & _ & Hres & Hrels & _ & _ & ->).
  destruct (pushed_relations_entry None (relations qo) (filters qo) f Hf Hn)
    as (t0 & Hget & [Hs0 Hf0] & _).
  eapply resolved_relations in Hres as (t1 & Hget1 & [Hs1 Hf1]); [| exact Hget].
  apply Hrels in Hget1 as (t2 & Hget2 & [Hs2 Hf2]).
  exists t2. split; [exact Hget2 |]. split; congruence.
Qed.

(** Compilation is not idempotent on the specification it leaves: the
    dotted filters stay in [filters] while their shifted remainders are
    appended to the relation, so compiling the same specification object
    a second time appends them once more, and the relation then carries
    every pushed filter twice. *)
Theorem second_compilation_pushes_again (w : World) (qo qo' qo'' : ActionTree)
    (cls : BaseSerializer) (q q' : statement) (f : FilterAction) :
  json_query_statement w qo cls = Ok (q, qo') ->
  json_query_statement w qo' cls = Ok (q', qo'') ->
  f ∈ filters qo -> is_nested (flt_field f) = true ->
  let name := first_segment (flt_field f) in
  let before :=
    match dict_get (relations qo) name with
    | Some t => filters t
    | None => []
    end in
  let pushed := List.map shifted (dotted_into name (filters qo)) in
  exists t' t'',
    dict_get (relations qo') name = Some t'
    /\ filters t' = before ++ pushed
    /\ dict_get (relations qo'') name = Some t''
    /\ filters t'' = before ++ pushed ++ pushed
    /\ shifted f ∈ pushed.
Proof.
  intros H1 H2 Hf Hn name before pushed.
  assert (Hqo' : filters qo' = filters qo).
  { pose proof H1 as H. apply json_query_statement_Ok in H
      as (? & ? & ? & ? & ? & ? & ? & ? & ? & ? & _ & _ & _ & _ & _ & _ & _ & ->).
    reflexivity. }
  destruct (json_query_pushed_entry _ _ _ _ _ f H1 Hf Hn) as (t' & Hget' & [_ Hf']).
  assert (Hf2 : f ∈ filters qo') by (by rewrite Hqo').
  destruct (json_query_pushed_entry _ _ _ _ _ f H2 Hf2 Hn) as (t'' & Hget'' & [_ Hf'']).
  fold name in Hget', Hf', Hget'', Hf''. rewrite Hget', Hqo' in Hf''.
  fold pushed in Hf', Hf''.
  assert (Hbefore : filters match dict_get (relations qo) name with
                            | Some t0 => t0
                            | None => new_ActionTree None
                            end = before).
  { unfold before. by destruct (dict_get (relations qo) name). }
  rewrite Hbefore in Hf'.
  exists t', t''. split; [done |]. split; [done |]. split; [done |].
  split; [by rewrite Hf'', Hf', <- app_assoc |].
  unfold pushed, dotted_into, dotted.
  rewrite list_elem_of_In. apply in_map.
  rewrite !filter_In, <- list_elem_of_In. by rewrite bool_decide_eq_true.
Qed.

Lemma second_compilation_pushes_again_witness :
  let w := Library.world ONETOMANY in
  let f := Library.title_is ["books"; "title"] "X" in
  let qo := mkActionTree (Some ["name"]) [f] None [] None None in
  exists q qo' q' qo'' t'',
    json_query_statement w qo Library.AuthorSerializer = Ok (q, qo')
    /\ json_query_statement w qo' Library.AuthorSerializer = Ok (q', qo'')
    /\ dict_get (relations qo'') "books" = Some t''
    /\ filters t'' = [shifted f; shifted f].
Proof.
  cbv zeta. eexists _, _, _, _, _.
  split; [vm_compute; reflexivity |]. split; [vm_compute; reflexivity |].
  split; [vm_compute; reflexivity |].
  destruct (second_compilation_pushes_again (Library.world ONETOMANY)
              (mkActionTree (Some ["name"]) [Library.title_is ["books"; "title"] "X"]
                 None [] None None)
              _ _ Library.AuthorSerializer _ _ (Library.title_is ["books"; "title"] "X")
              ltac:(vm_compute; reflexivity) ltac:(vm_compute; reflexivity)
              ltac:(left) eq_refl)
    as (t1 & t2 & _ & _ & Hget2 & Hf2 & _).
  vm_compute in Hget2. injection Hget2 as <-. reflexivity.
Defined.

(** ** The fragment of a relation, part by part *)

(** A successful run of [_relation_select], with the columns of the join
    condition, the sort, the filter loop and the joins to tables that
    [relation_select_Ok] leaves out. *)
Lemma relation_select_run (bound : nat) (w : World) (action action' : ActionTree)
    (cls : BaseSerializer) (parent_model : model) (rel : Relationship) (t : selectable) :
  _relation_select (S bound) w action (Some cls) parent_model rel = Ok (t, action') ->
  exists pc oc q0 fts sub items key tables js c rels inner relfs rels',
    join_columns w cls rel = (pc, oc)
    /\ _resolve_relationships w (_relation_select bound w) rels cls (SubqueryCol "id")
       = Ok (relfs, js, rels')
    /\ relation_select_base w action cls rel pc
         (bool_decide (pc ≠ model_id (ser_model cls))) = Ok (q0, fts)
    /\ match sort action with
       | Some s =>
           exists col, get_db_field_of cls (sort_field s) = Ok col
                       /\ sub = Sql.order_by q0 (ordering (order s) col)
       | None => sub = q0
       end
    /\ relation_select_filters w cls sub (filters action) (relations action, [], [])
       = Ok (rels, items, inner)
    /\ (if negb (bool_decide (pc ≠ model_id (ser_model cls)))
           || bool_decide (direction rel = MANYTOMANY)
        then key = Col (model_id parent_model)
        else key = SubqueryCol (col_name pc) /\ col_name pc ∈ column_keys w sub)
    /\ (if bool_decide (direction rel = MANYTOMANY)
        then exists sec,
               secondaryjoin rel = Some sec
               /\ tables
                  = [table_join (col_table (snd (primaryjoin rel)))
                       (Eq (Col (snd sec)) (SubqueryCol "id")) false;
                     table_join parent_model
                       (Eq (Col oc) (Col (snd (primaryjoin rel)))) false]
        else if negb (bool_decide (pc ≠ model_id (ser_model cls)))
             then tables
                  = [table_join parent_model
                       (Eq (Col oc) (SubqueryCol (col_name pc))) true]
                  /\ col_name pc ∈ column_keys w sub
             else tables = [])
    /\ t = Cte c ["NOT MATERIALIZED"]
    /\ from_obj c = Some (Subquery sub)
    /\ joins c = tables ++ List.map (join_clause inner) js
    /\ where_criteria c = match items with [] => [] | _ :: _ => [And items] end
    /\ group_by_clauses c = [key]
    /\ List.nth 1 (raw_columns c) Null = Label key "id".
Proof.
  intros H. simpl in H.
  assert (Hjc : (let (left, right) := primaryjoin rel in
                 if bool_decide (left ∈ columns (get_model_inspection w cls))
                 then (left, right) else (right, left)) = join_columns w cls rel).
  { unfold join_columns. by destruct (primaryjoin rel). }
  destruct (primaryjoin rel) as [left right] eqn:Hpj. simpl in H.
  rewrite Hjc in H. clear Hjc.
  destruct (join_columns w cls rel) as [pc oc].
  apply bind_Ok in H as ([q0 fts] & Hbase & H).
  apply bind_Ok in H as (sub & Hsort & H).
  apply bind_Ok in H as (json_fields & Hjson & H).
  apply bind_Ok in H as ([[rels1 items] inner] & Hflt & H).
  apply bind_Ok in H as (q_c_id & Hid & H).
  apply bind_Ok in H as ([[relfs js] rels] & Hres & H).
  apply bind_Ok in H as (key & Hkey & H).
  apply bind_Ok in H as (cte0 & Hcte & H).
  injection H as <- <-.
  unfold subquery_c_attr in Hid.
  destruct (bool_decide ("id" ∈ _)) in Hid; [| discriminate]. injection Hid as <-.
  assert (Hjoins : exists tables,
            (if bool_decide (direction rel = MANYTOMANY)
             then exists sec,
                    secondaryjoin rel = Some sec
                    /\ tables
                       = [table_join (col_table right)
                            (Eq (Col (snd sec)) (SubqueryCol "id")) false;
                          table_join parent_model (Eq (Col oc) (Col right)) false]
             else if negb (bool_decide (pc ≠ model_id (ser_model cls)))
                  then tables
                       = [table_join parent_model
                            (Eq (Col oc) (SubqueryCol (col_name pc))) true]
                       /\ col_name pc ∈ column_keys w sub
                  else tables = [])
            /\ from_obj cte0 = Some (Subquery sub)
            /\ joins cte0 = tables /\ where_criteria cte0 = []
            /\ group_by_clauses cte0 = []
            /\ List.nth 1 (raw_columns cte0) Null = Label key "id").
  { destruct (bool_decide (direction rel = MANYTOMANY)).
    - apply bind_Ok in Hcte as (sec & Hsec & Hcte). injection Hcte as <-.
      destruct (secondaryjoin rel) as [sec'|]; [| discriminate]. injection Hsec as ->.
      eexists. split; [exists sec; split; reflexivity |]. repeat split.
    - destruct (negb _).
      + apply bind_Ok in Hcte as (e & He & Hcte). injection Hcte as <-.
        apply subquery_c_Ok in He as [-> Hin].
        eexists. split; [split; [reflexivity | exact Hin] |]. repeat split.
      + injection Hcte as <-. exists []. repeat split. }
  destruct Hjoins as (tables & Htables & Hfrom & Hj & Hw & Hg & Hcol).
  assert (Hk : if negb (bool_decide (pc ≠ model_id (ser_model cls)))
                  || bool_decide (direction rel = MANYTOMANY)
               then key = Col (model_id parent_model)
               else key = SubqueryCol (col_name pc) /\ col_name pc ∈ column_keys w sub).
  { destruct (negb _ || _).
    - by injection Hkey as <-.
    - by apply subquery_c_Ok in Hkey. }
  assert (Hs : match sort action with
               | Some s =>
                   exists col, get_db_field_of cls (sort_field s) = Ok col
                               /\ sub = Sql.order_by q0 (ordering (order s) col)
               | None => sub = q0
               end).
  { destruct (sort action) as [s|].
    - apply bind_Ok in Hsort as (col & Hcol' & Hsort). injection Hsort as <-. eauto.
    - by injection Hsort as <-. }
  eexists pc, oc, q0, fts, sub, items, key, tables, js, _, rels1, inner, relfs, rels.
  split; [reflexivity |]. split; [exact Hres |]. split; [exact Hbase |]. split; [exact Hs |].
  split; [exact Hflt |]. split; [exact Hk |]. split; [exact Htables |].
  split; [reflexivity |].
  rewrite join_relations_eq. rewrite Hfrom, Hj, Hw, Hg.
  destruct items; simpl; rewrite ?Hfrom, ?Hj, ?Hw, ?Hg, ?Hcol; repeat split; done.
Qed.

Lemma relation_select_filters_direct (w : World) (cls : BaseSerializer) (q : statement)
    (flts : list FilterAction) (st st' : filter_state) :
  relation_select_filters w cls q flts st = Ok st' ->
  exists criteria,
    snd (fst st') = snd (fst st) ++ criteria
    /\ Forall2
         (fun f e =>
            exists sf,
              get_serializer_field_of cls (flt_field f) = Ok sf
              /\ field sf ∈ column_keys w q
              /\ e = Operator (operator f) (SubqueryCol (field sf)) (flt_value f))
         (direct flts) criteria.
Proof.
  revert st. induction flts as [|f flts IH]; intros [[rels fl] inner] H; simpl in H.
  - injection H as <-. exists []. simpl. rewrite app_nil_r. split; [done | constructor].
  - unfold direct. simpl. destruct (is_nested (flt_field f)) eqn:Hn; simpl.
    + apply IH in H as (criteria & Heq & Hall). exists criteria. by split.
    + apply bind_Ok in H as (sf & Hsf & H). apply bind_Ok in H as (c & Hc & H).
      apply IH in H as (criteria & Heq & Hall). simpl in Heq.
      apply subquery_c_Ok in Hc as [-> Hin].
      exists (Operator (operator f) (SubqueryCol (field sf)) (flt_value f) :: criteria).
      split; [by rewrite Heq, <- app_assoc |].
      constructor; [| exact Hall]. exists sf. done.
Qed.

(** Which side holds the foreign key decides the shape of a fragment.  For
    MANYTOMANY the statement joins the association table and the parent
    table, both INNER, and is grouped by the id of the parent.  Otherwise,
    when the column of the join condition on the entity of the relation is
    its own id (the parent holds the foreign key), the statement joins the
    parent table LEFT OUTER on that id and is grouped by the id of the
    parent; and when it is another column (the entity holds the foreign
    key), no table is joined, the statement is grouped by that column of the
    subquery, and the subquery has the column.  The expression the statement
    is grouped by is always the one it exposes as [id], and the joins that
    follow are those of the relations. *)
Theorem fragment_key_side (bound : nat) (w : World) (action action' : ActionTree)
    (cls : BaseSerializer) (parent_model : model) (rel : Relationship)
    (c : Select selectable) (prefixes : list string) :
  _relation_select bound w action (Some cls) parent_model rel
  = Ok (Cte c prefixes, action') ->
  exists pc oc sub key relation_joins,
    join_columns w cls rel = (pc, oc)
    /\ from_obj c = Some (Subquery sub)
    /\ group_by_clauses c = [key]
    /\ List.nth 1 (raw_columns c) Null = Label key "id"
    /\ Forall (fun j => exists s p, target j = Cte s p) relation_joins
    /\ (direction rel = MANYTOMANY ->
        key = Col (model_id parent_model)
        /\ exists sec,
             secondaryjoin rel = Some sec
             /\ joins c
                = [table_join (col_table (snd (primaryjoin rel)))
                     (Eq (Col (snd sec)) (SubqueryCol "id")) false;
                   table_join parent_model
                     (Eq (Col oc) (Col (snd (primaryjoin rel)))) false]
                  ++ relation_joins)
    /\ (direction rel <> MANYTOMANY -> pc = model_id (ser_model cls) ->
        key = Col (model_id parent_model)
        /\ joins c
           = table_join parent_model (Eq (Col oc) (SubqueryCol "id")) true
             :: relation_joins)
    /\ (direction rel <> MANYTOMANY -> pc <> model_id (ser_model cls) ->
        key = SubqueryCol (col_name pc)
        /\ col_name pc ∈ column_keys w sub
        /\ joins c = relation_joins).
Proof.
  intros H. destruct bound; [discriminate |].
  apply relation_select_run in H
    as (pc & oc & q0 & fts & sub & items & key & tables & js & c' & rels & inner
        & relfs & rels' & Hjc & Hres & _ & _ & _ & Hkey & Htables & [= -> ->]
        & Hfrom & Hjoins & _ & Hg & Hcol).
  exists pc, oc, sub, key, (List.map (join_clause inner) js).
  split; [done |]. split; [done |]. split; [done |]. split; [done |].
  split.
  { eapply resolved_fragments with (P := fun t => exists s p, t = Cte s p);
      [| exact Hres].
    intros. eapply relation_select_is_cte. eassumption. }
  rewrite Hjoins. split; [| split].
  - intros Hd. rewrite (bool_decide_eq_true_2 (direction rel = MANYTOMANY)) in Hkey, Htables by done.
    rewrite orb_true_r in Hkey. split; [done |].
    destruct Htables as (sec & Hsec & ->). eauto.
  - intros Hd Hpc. rewrite (bool_decide_eq_false_2 (direction rel = MANYTOMANY)) in Hkey, Htables by done.
    rewrite (bool_decide_eq_false_2 (pc ≠ _)) in Hkey, Htables by (intros ?; done).
    simpl in Hkey, Htables. split; [done |].
    destruct Htables as [-> _]. by rewrite Hpc.
  - intros Hd Hpc. rewrite (bool_decide_eq_false_2 (direction rel = MANYTOMANY)) in Hkey, Htables by done.
    rewrite (bool_decide_eq_true_2 (pc ≠ _)) in Hkey, Htables by done.
    simpl in Hkey, Htables. destruct Hkey as [-> Hin]. by subst tables.
Qed.

Lemma fragment_key_side_witness :
  let w := Library.world ONETOMANY in
  let tree := mkActionTree (Some ["title"]) [] None [] None None in
  exists c prefixes action' sub,
    _relation_select 1 w tree (Some Library.BookSerializer) "author"
      (Library.books ONETOMANY) = Ok (Cte c prefixes, action')
    /\ join_columns w Library.BookSerializer (Library.books ONETOMANY)
       = (Library.book_author_id, Library.author_id)
    /\ from_obj c = Some (Subquery sub)
    /\ group_by_clauses c = [SubqueryCol "author_id"]
    /\ "author_id" ∈ column_keys w sub
    /\ joins c = [].
Proof.
  cbv zeta. eexists _, _, _, _. split; [vm_compute; reflexivity |].
  split; [reflexivity |].
  destruct (fragment_key_side 1 (Library.world ONETOMANY)
              (mkActionTree (Some ["title"]) [] None [] None None) _
              Library.BookSerializer "author" (Library.books ONETOMANY) _ _
              ltac:(vm_compute; reflexivity))
    as (pc & oc & sub & key & rj & Hjc & Hfrom & Hg & _ & _ & _ & _ & Hfk).
  injection Hjc as <- <-. injection Hfrom as <-.
  destruct Hfk as (-> & Hin & Hj); [discriminate | discriminate |].
  split; [reflexivity |]. split; [exact Hg |]. split; [exact Hin |].
  reflexivity.
Defined.

(** The sort of a relation names a field of the entity by its storage name
    (the root resolves an alias instead): the subquery of the fragment is
    ordered by the attribute of that name, descending for [SortOrder.DESC]
    and ascending otherwise, before the rows are aggregated; without a sort
    it is not ordered; and the aggregating statement is never ordered. *)
Theorem relation_sort_orders_subquery (bound : nat) (w : World)
    (action action' : ActionTree) (cls : BaseSerializer) (parent_model : model)
    (rel : Relationship) (c : Select selectable) (prefixes : list string) :
  _relation_select bound w action (Some cls) parent_model rel
  = Ok (Cte c prefixes, action') ->
  exists sub,
    from_obj c = Some (Subquery sub)
    /\ order_by_clauses c = []
    /\ match sort action with
       | None => order_by_clauses sub = []
       | Some s =>
           exists name,
             sort_field s = [name]
             /\ name ∈ List.map field (fields cls)
             /\ order_by_clauses sub
                = [ordering (order s) (Column (ser_model cls) name)]
       end.
Proof.
  intros H. destruct bound; [discriminate |]. pose proof H as Hok.
  apply relation_select_run in H
    as (pc & oc & q0 & fts & sub & items & key & tables & js & c' & rels & inner
        & relfs & rels' & _ & _ & Hbase & Hsort & _ & _ & _ & [= -> ->]
        & Hfrom & _).
  apply relation_select_Ok in Hok
    as (? & ? & ? & ? & ? & ? & ? & ? & ? & ? & ? & ? & ?
        & _ & _ & _ & _ & _ & _ & Hc & _).
  injection Hc as Hc. apply (f_equal order_by_clauses) in Hc. simpl in Hc.
  exists sub. split; [done |]. split; [done |].
  apply relation_select_base_Ok in Hbase as [Hq0 _].
  destruct (sort action) as [s|].
  - destruct Hsort as (col & Hcol & ->). unfold get_db_field_of in Hcol.
    destruct (sort_field s) as [|name [|? ?]]; try discriminate. simpl in Hcol.
    pose proof (get_db_field_Ok_stored _ _ _ Hcol) as Hname.
    apply get_db_field_Ok in Hcol as ->. exists name. split; [done |]. split; [done |].
    rewrite Hq0. reflexivity.
  - subst sub. by rewrite Hq0.
Qed.

Lemma relation_sort_orders_subquery_witness :
  let w := Library.world ONETOMANY in
  let tree :=
    mkActionTree (Some ["title"]) [] (Some {| sort_field := ["title"]; order := DESC |})
      [] None None in
  exists c prefixes action' sub,
    _relation_select 1 w tree (Some Library.BookSerializer) "author"
      (Library.books ONETOMANY) = Ok (Cte c prefixes, action')
    /\ from_obj c = Some (Subquery sub)
    /\ order_by_clauses c = []
    /\ order_by_clauses sub = [Desc (Col (Column "book" "title"))].
Proof.
  cbv zeta. eexists _, _, _, _. split; [vm_compute; reflexivity |].
  destruct (relation_sort_orders_subquery 1 (Library.world ONETOMANY)
              (mkActionTree (Some ["title"]) []
                 (Some {| sort_field := ["title"]; order := DESC |}) [] None None) _
              Library.BookSerializer "author" (Library.books ONETOMANY) _ _
              ltac:(vm_compute; reflexivity))
    as (sub & Hfrom & Hc & name & Hname & _ & Hsub).
  injection Hfrom as <-. injection Hname as <-.
  split; [reflexivity |]. split; [exact Hc | exact Hsub].
Defined.

(** The direct filters of a relation are one criterion of its fragment, the
    conjunction of one comparison per filter, in their order, each on the
    column of the subquery that the alias of the filter resolves to; the
    subquery has every such column; and a relation without direct filters
    has no criterion. *)
Theorem relation_where_criteria (bound : nat) (w : World)
    (action action' : ActionTree) (cls : BaseSerializer) (parent_model : model)
    (rel : Relationship) (c : Select selectable) (prefixes : list string) :
  _relation_select bound w action (Some cls) parent_model rel
  = Ok (Cte c prefixes, action') ->
  exists sub criteria,
    from_obj c = Some (Subquery sub)
    /\ where_criteria c = match criteria with [] => [] | _ :: _ => [And criteria] end
    /\ Forall2
         (fun f e =>
            exists sf,
              get_serializer_field_of cls (flt_field f) = Ok sf
              /\ field sf ∈ column_keys w sub
              /\ e = Operator (operator f) (SubqueryCol (field sf)) (flt_value f))
         (direct (filters action)) criteria.
Proof.
  intros H. destruct bound; [discriminate |].
  apply relation_select_run in H
    as (pc & oc & q0 & fts & sub & items & key & tables & js & c' & rels & inner
        & relfs & rels' & _ & _ & _ & _ & Hflt & _ & _ & [= -> ->]
        & Hfrom & _ & Hwhere & _).
  apply relation_select_filters_direct in Hflt as (criteria & Heq & Hall).
  simpl in Heq. subst items. exists sub, criteria. done.
Qed.

Lemma relation_where_criteria_witness :
  let w := Library.world ONETOMANY in
  let tree :=
    mkActionTree None [Library.title_is ["title"] "X"] None [] None None in
  exists c prefixes action',
    _relation_select 1 w tree (Some Library.BookSerializer) "author"
      (Library.books ONETOMANY) = Ok (Cte c prefixes, action')
    /\ where_criteria c = [And [Operator "eq" (SubqueryCol "title") (VStr "X")]].
Proof.
  cbv zeta. eexists _, _, _. split; [vm_compute; reflexivity |].
  destruct (relation_where_criteria 1 (Library.world ONETOMANY)
              (mkActionTree None [Library.title_is ["title"] "X"] None [] None None) _
              Library.BookSerializer "author" (Library.books ONETOMANY) _ _
              ltac:(vm_compute; reflexivity))
    as (sub & criteria & _ & Hwhere & _).
  reflexivity.
Defined.

Lemma traverse_Ok_elem {A B : Type} (f : A -> result B) (l : list A) (bs : list B) (a : A) :
  traverse f l = Ok bs -> a ∈ l -> exists b, f a = Ok b /\ b ∈ bs.
Proof.
  revert bs. induction l as [|x l IH]; intros bs H Hin.
  - by apply elem_of_nil in Hin.
  - simpl in H. apply bind_Ok in H as (b & Hb & H). apply bind_Ok in H as (bs' & Hbs & H).
    injection H as <-. apply elem_of_cons in Hin as [-> | Hin].
    + exists b. split; [done | left].
    + destruct (IH _ Hbs Hin) as (b' & ? & ?). exists b'. split; [done | by right].
Qed.

Lemma elem_of_fold_set_add (cs : list column) (init : list selected) (x : selected) :
  x ∈ fold_left (fun fld c => set_add (Attribute c) fld) cs init
  <-> (exists c, x = Attribute c /\ c ∈ cs) \/ x ∈ init.
Proof.
  revert init. induction cs as [|y cs IH]; intros init; simpl.
  - split; [by right | intros [(c & _ & Hc) | ?]; [by apply elem_of_nil in Hc | done]].
  - rewrite IH, elem_of_set_add. split.
    + intros [(c & -> & Hc) | [-> | ?]].
      * left. exists c. split; [done | by right].
      * left. exists y. split; [done | left].
      * by right.
    + intros [(c & -> & Hc) | ?]; [| right; by right].
      apply elem_of_cons in Hc as [-> | Hc]; [right; by left | left; eauto].
Qed.

Lemma elem_of_set_of (xs : list selected) (x : selected) : x ∈ xs -> x ∈ set_of xs.
Proof.
  unfold set_of. assert (H : forall init, x ∈ xs \/ x ∈ init ->
                              x ∈ fold_left (fun fld x => set_add x fld) xs init).
  { induction xs as [|y xs IH]; intros init; simpl.
    - intros [Hx | ?]; [by apply elem_of_nil in Hx | done].
    - intros [Hx | ?]; apply IH; rewrite elem_of_set_add.
      + apply elem_of_cons in Hx as [-> | Hx]; [right; by left | by left].
      + right. by right. }
  intros Hx. apply H. by left.
Qed.

Lemma NoDup_set_add (x : selected) (fld : list selected) :
  NoDup fld -> NoDup (set_add x fld).
Proof.
  intros H. unfold set_add. case_bool_decide as Hc; [done |].
  apply NoDup_app. split; [done |]. split; [| apply NoDup_singleton].
  intros y Hy Hyx. apply list_elem_of_singleton in Hyx. by subst.
Qed.

Lemma NoDup_fold_set_add {A : Type} (f : A -> selected) (cs : list A)
    (init : list selected) :
  NoDup init -> NoDup (fold_left (fun fld c => set_add (f c) fld) cs init).
Proof.
  revert init. induction cs as [|y cs IH]; intros init H; simpl; [done |].
  by apply IH, NoDup_set_add.
Qed.

Lemma column_keys_select_cols (w : World) (fld : list selected) :
  column_keys w (Sql.select (List.map selected_expr fld))
  = List.map (fun x => col_name (selected_column x)) fld.
Proof.
  unfold column_keys. simpl. induction fld as [|c fld IH]; simpl; [done |].
  by rewrite IH.
Qed.

(** With a select list the subquery of a relation selects the members of a
    Python set, each object once: the attribute of every selected field, of
    every direct filter and of the id, and the column of the join condition
    when the entity holds it and the relationship is not MANYTOMANY.  The
    column of the join condition is another object than the attribute that
    maps it, so the statement can name one column twice.  The lookups
    [q.c[...]] that [_relation_select] makes afterwards for the JSON
    object, the filters and the key find their column. *)
Theorem select_list_covers_lookups (w : World) (action : ActionTree)
    (cls : BaseSerializer) (rel : Relationship) (pc : column) (hp : bool)
    (sel : list string) (q0 : statement) (fts : list SerializerField) :
  truthy_select (select action) = Some sel ->
  relation_select_base w action cls rel pc hp = Ok (q0, fts) ->
  (exists fld : list selected,
      NoDup fld /\ raw_columns q0 = List.map selected_expr fld
      /\ (TableColumn pc ∈ fld <-> hp = true /\ direction rel <> MANYTOMANY))
  /\ "id" ∈ column_keys w q0
  /\ (forall f, f ∈ fts -> field f ∈ column_keys w q0)
  /\ (forall f sf, f ∈ direct (filters action) ->
        get_serializer_field_of cls (flt_field f) = Ok sf ->
        field sf ∈ column_keys w q0)
  /\ (hp = true -> direction rel <> MANYTOMANY -> col_name pc ∈ column_keys w q0).
Proof.
  intros Hsel H. unfold relation_select_base in H. rewrite Hsel in H.
  apply bind_Ok in H as (fts0 & _ & H). apply bind_Ok in H as (fts' & _ & H).
  apply bind_Ok in H as (cols & Hcols & H). apply bind_Ok in H as (filtered & Hfiltered & H).
  apply bind_Ok in H as (id & Hid & H). injection H as <- <-.
  apply get_db_field_Ok in Hid as ->.
  rewrite column_keys_select_cols.
  set (fld1 := if hp then _ else _).
  set (fld := set_add (Attribute (model_id (ser_model cls)))
                (fold_left (fun fld c => set_add (Attribute c) fld) filtered fld1)).
  assert (Hmem : forall x,
            x ∈ fld
            <-> x = Attribute (model_id (ser_model cls))
                \/ (exists c, x = Attribute c /\ c ∈ filtered) \/ x ∈ fld1).
  { intros x. unfold fld. by rewrite elem_of_set_add, elem_of_fold_set_add. }
  assert (Hkey : forall x,
            x ∈ fld ->
            col_name (selected_column x)
            ∈ List.map (fun x => col_name (selected_column x)) fld).
  { intros x Hx. rewrite list_elem_of_In.
    apply (in_map (fun x => col_name (selected_column x))).
    by rewrite <- list_elem_of_In. }
  assert (Hfld1 : forall x, x ∈ set_of (List.map Attribute cols) -> x ∈ fld1).
  { intros x Hx. unfold fld1. destruct hp; [| done].
    case_bool_decide; [| done]. apply elem_of_set_add. by right. }
  assert (Hattr : forall c (l : list column), TableColumn c ∉ set_of (List.map Attribute l)).
  { intros c l. unfold set_of.
    assert (Hg : forall init, TableColumn c ∉ init ->
                   TableColumn c
                   ∉ fold_left (fun fld x => set_add x fld) (List.map Attribute l) init).
    { induction l as [|y l IH]; intros init Hinit; simpl; [done |].
      apply IH. rewrite elem_of_set_add. intros [? | ?]; [discriminate | done]. }
    apply Hg, not_elem_of_nil. }
  split; [| split; [| split; [| split]]].
  - exists fld. split; [| split; [reflexivity |]].
    + unfold fld. apply NoDup_set_add.
      apply (NoDup_fold_set_add Attribute). unfold fld1.
      assert (Hnd : NoDup (set_of (List.map Attribute cols))).
      { unfold set_of. apply (NoDup_fold_set_add (fun x => x)). constructor. }
      destruct hp; [| done]. case_bool_decide; [by apply NoDup_set_add | done].
    + rewrite Hmem. unfold fld1. split.
      * intros [? | [(c & ? & _) | Hin]]; [discriminate | discriminate |].
        destruct hp; [| by apply Hattr in Hin].
        case_bool_decide as Hd; [done | by apply Hattr in Hin].
      * intros [-> Hd]. right. right. rewrite bool_decide_eq_true_2 by done.
        apply elem_of_set_add. by left.
  - apply (Hkey (Attribute (model_id (ser_model cls)))). apply Hmem. by left.
  - intros f Hf. destruct (traverse_Ok_elem _ _ _ _ Hcols Hf) as (c & Hc & Hin).
    apply get_db_field_Ok in Hc as ->.
    apply (Hkey (Attribute (Column (ser_model cls) (field f)))). apply Hmem.
    right. right. apply Hfld1, elem_of_set_of.
    rewrite list_elem_of_In. apply in_map. by rewrite <- list_elem_of_In.
  - intros f sf Hf Hsf. destruct (traverse_Ok_elem _ _ _ _ Hfiltered Hf) as (c & Hc & Hin).
    rewrite Hsf in Hc. simpl in Hc. apply get_db_field_Ok in Hc as ->.
    apply (Hkey (Attribute (Column (ser_model cls) (field sf)))). apply Hmem.
    right. left. eauto.
  - intros -> Hd. apply (Hkey (TableColumn pc)). apply Hmem. right. right. unfold fld1.
    rewrite bool_decide_eq_true_2 by done. apply elem_of_set_add. by left.
Qed.

(** The foreign key of [Book], asked for by name: the attribute
    [Book.author_id] and the column of the join condition are both in the
    set, and the statement names the column twice. *)
Lemma select_list_covers_lookups_witness :
  let w := Library.world ONETOMANY in
  let action :=
    mkActionTree (Some ["author_id"]) [Library.title_is ["title"] "X"] None [] None None in
  exists q0 fts,
    truthy_select (select action) = Some ["author_id"]
    /\ relation_select_base w action Library.BookSerializer (Library.books ONETOMANY)
         Library.book_author_id true = Ok (q0, fts)
    /\ raw_columns q0
       = [Col Library.book_author_id; Col Library.book_author_id;
          Col (Column "book" "title"); Col (Column "book" "id")]
    /\ "id" ∈ column_keys w q0.
Proof.
  cbv zeta. eexists _, _. split; [reflexivity |]. split; [vm_compute; reflexivity |].
  split; [reflexivity |].
  refine (proj1 (proj2 (select_list_covers_lookups (Library.world ONETOMANY)
           (mkActionTree (Some ["author_id"]) [Library.title_is ["title"] "X"]
              None [] None None)
           Library.BookSerializer (Library.books ONETOMANY) Library.book_author_id true
           ["author_id"] _ _ eq_refl _))).
  vm_compute. reflexivity.
Defined.

(** ** Depth of the recursion *)

Lemma bind_ext {A B : Type} (m : result A) (k1 k2 : A -> result B) :
  (forall a, m = Ok a -> k1 a = k2 a) -> bind m k1 = bind m k2.
Proof. destruct m as [a|e]; simpl; [eauto | reflexivity]. Qed.

Lemma resolve_relationships_ext (w : World) (c1 c2 : relation_compiler)
    (rels : list (string * ActionTree)) (cls : BaseSerializer) (id_field : expr) :
  (forall name t s m r, (name, t) ∈ rels -> c1 t s m r = c2 t s m r) ->
  _resolve_relationships w c1 rels cls id_field
  = _resolve_relationships w c2 rels cls id_field.
Proof.
  induction rels as [|[name tree] rest IH]; intros Hc; simpl; [reflexivity |].
  apply bind_ext; intros sf _. apply bind_ext; intros rel _.
  apply bind_ext; intros rs _.
  rewrite (Hc name tree rs (ser_model cls) rel) by left.
  apply bind_ext; intros [cte tree'] _. apply bind_ext; intros fs _.
  rewrite IH; [reflexivity |]. intros n t s m r Hin. apply (Hc n). by right.
Qed.

(** The recursion of [_relation_select] through [_resolve_relationships]
    ends, although compiling creates specifications for dotted filters: it
    is never deeper than the weight of the specification, one for each
    specification in it plus the lengths of its filter paths.  With a bound
    of at least that weight the embedding never stops for want of depth,
    and its result is the same for every such bound. *)
Theorem relation_select_depth (b1 b2 : nat) (w : World) (action : ActionTree)
    (s : option BaseSerializer) (parent_model : model) (rel : Relationship) :
  weight action <= b1 -> weight action <= b2 ->
  _relation_select b1 w action s parent_model rel
  = _relation_select b2 w action s parent_model rel
  /\ _relation_select b1 w action s parent_model rel <> Raise RecursionBound.
Proof.
  intros H1 H2. split; [| by apply relation_select_bound].
  revert b2 action s parent_model rel H1 H2.
  induction b1 as [|b1 IH]; intros b2 action s parent_model rel H1 H2.
  { rewrite weight_eq in H1. lia. }
  destruct b2 as [|b2]; [rewrite weight_eq in H2; lia |].
  simpl. destruct (primaryjoin rel) as [left right].
  apply bind_ext; intros cls _.
  destruct (if bool_decide (left ∈ columns (get_model_inspection w cls))
            then (left, right) else (right, left)) as [pc oc].
  apply bind_ext; intros [q0 fts] _. apply bind_ext; intros q _.
  apply bind_ext; intros jf _. apply bind_ext; intros [[rels fl] inner] Hflt.
  apply bind_ext; intros qid _.
  rewrite (resolve_relationships_ext w (_relation_select b1 w) (_relation_select b2 w));
    [reflexivity |].
  intros name t s' m r Hin.
  apply relation_select_filters_Ok in Hflt as [-> _].
  apply weights_elem in Hin.
  pose proof (weights_pushed_relations (Some ["id"]) (filters action) (relations action)).
  rewrite weight_eq in H1, H2. apply IH; lia.
Qed.

Lemma relation_select_depth_witness :
  let w := Library.world ONETOMANY in
  let action :=
    mkActionTree (Some ["name"]) [Library.title_is ["books"; "author"; "name"] "Ann"]
      None [] None None in
  weight action = 4
  /\ _relation_select 4 w action (Some Library.AuthorSerializer) "book" Library.author
     = _relation_select 9 w action (Some Library.AuthorSerializer) "book" Library.author
  /\ _relation_select 4 w action (Some Library.AuthorSerializer) "book" Library.author
     <> Raise RecursionBound.
Proof.
  cbv zeta. split; [reflexivity |].
  apply (relation_select_depth 4 9); vm_compute; lia.
Defined.

(** ** Pagination values that count as absent *)

(** [limit = 0] and [offset = 0] are false in Python and are dropped like
    [None]: the statement has a LIMIT exactly for a limit other than zero
    and an OFFSET exactly for an offset other than zero.  In particular
    [limit = 0] does not return zero rows: without an offset the statement
    returns every row. *)
Theorem zero_limit_is_no_limit (w : World) (qo qo' : ActionTree) (cls : BaseSerializer)
    (q : statement) :
  json_query_statement w qo cls = Ok (q, qo') ->
  (forall n, limit_clause q = Some n <-> limit qo = Some n /\ n <> 0%Z)
  /\ (forall n, offset_clause q = Some n <-> offset qo = Some n /\ n <> 0%Z)
  /\ (limit qo = Some 0%Z -> offset qo = None ->
      forall (A : Type) (rows : list A), Sqlite.offset_limit q rows = rows).
Proof.
  intros H. apply json_query_statement_Ok in H
    as (? & ? & ? & ? & ? & ? & ? & ? & ? & ? & _ & _ & _ & _ & _ & _ & -> & _).
  simpl.
  assert (Ht : forall o n, truthy_int o = Some n <-> o = Some n /\ n <> 0%Z).
  { intros [z|] n; simpl; [| split; [discriminate | intros [? _]; discriminate]].
    destruct (decide (z = 0%Z)) as [->|Hz].
    - split; [discriminate | intros [[= <-] ?]; done].
    - split; [intros [= <-]; done | intros [[= <-] _]; done]. }
  split; [apply Ht |]. split; [apply Ht |].
  intros Hl Ho A rows. unfold Sqlite.offset_limit. simpl. by rewrite Hl, Ho.
Qed.

Lemma zero_limit_is_no_limit_witness :
  let w := Library.world ONETOMANY in
  let qo := mkActionTree (Some ["name"]) [] None [] None (Some 0%Z) in
  exists q qo',
    json_query_statement w qo Library.AuthorSerializer = Ok (q, qo')
    /\ limit qo = Some 0%Z /\ offset qo = None
    /\ Sqlite.offset_limit q [1; 2; 3]%Z = [1; 2; 3]%Z.
Proof.
  cbv zeta. eexists _, _. split; [vm_compute; reflexivity |].
  split; [reflexivity |]. split; [reflexivity |].
  destruct (zero_limit_is_no_limit (Library.world ONETOMANY)
              (mkActionTree (Some ["name"]) [] None [] None (Some 0%Z)) _
              Library.AuthorSerializer _ ltac:(vm_compute; reflexivity))
    as (_ & _ & H).
  apply H; reflexivity.
Defined.

(** ** Dotted filters travel down *)

Lemma shifted_direct_filter (f : FilterAction) (a leaf : string) :
  flt_field f = [a; leaf] -> shifted f = direct_filter f leaf.
Proof. intros H. unfold shifted, direct_filter. by rewrite H. Qed.

Lemma descend_same (t t' : ActionTree) (path : list string) :
  relations t' = relations t -> path <> [] -> descend t' path = descend t path.
Proof. intros H Hp. destruct path; [done |]. simpl. by rewrite H. Qed.

Lemma relation_filter_travels (bound : nat) (w : World) (action action' : ActionTree)
    (s : option BaseSerializer) (parent_model : model) (rel : Relationship)
    (t : selectable) (f : FilterAction) (segments : list string) (leaf : string) :
  _relation_select bound w action s parent_model rel = Ok (t, action') ->
  f ∈ filters action -> flt_field f = segments ++ [leaf] -> segments <> [] ->
  exists t', descend action' segments = Some t' /\ direct_filter f leaf ∈ filters t'.
Proof.
  revert action action' s parent_model rel t f segments.
  induction bound as [|bound IH];
    intros action action' s parent_model rel t f segments H Hf Hpath Hne; [discriminate |].
  destruct segments as [|a rest]; [done |].
  assert (Hn : is_nested (flt_field f) = true).
  { rewrite Hpath. by destruct rest. }
  assert (Ha : first_segment (flt_field f) = a) by (by rewrite Hpath).
  apply relation_select_Ok in H
    as (ser & pc & hp & q0 & fts & obs & jf & relfs & js & rels & key & prelude & wh
        & _ & _ & _ & _ & Hres & _ & _ & ->).
  destruct (pushed_relations_entry (Some ["id"]) (relations action) (filters action)
              f Hf Hn) as (t0 & Hget & [_ Hfilters] & Hin).
  rewrite Ha in Hget, Hfilters, Hin.
  assert (Hin0 : shifted f ∈ filters t0).
  { rewrite Hfilters. apply elem_of_app. by right. }
  apply resolve_relationships_Ok in Hres as [_ Hres].
  destruct (dict_get_Forall2
              (fun t0 ta =>
                 exists rs rel' cte,
                   _relation_select bound w t0 rs (ser_model ser) rel' = Ok (cte, ta))
              _ _ a t0 Hres Hget) as (ta & Hgeta & rs & rel' & cte & Hc).
  simpl. rewrite Hgeta. destruct rest as [|b rest].
  - exists ta. split; [reflexivity |].
    destruct bound; [discriminate |].
    apply relation_select_Ok in Hc
      as (? & ? & ? & ? & ? & ? & ? & ? & ? & ? & ? & ? & ?
          & _ & _ & _ & _ & _ & _ & _ & ->).
    simpl. by rewrite <- (shifted_direct_filter f a leaf Hpath).
  - destruct (IH _ _ _ _ _ _ (shifted f) (b :: rest) Hc Hin0) as (t' & Hd & Hleaf);
      [by unfold shifted; simpl; rewrite Hpath | done |].
    exists t'. split; [exact Hd | exact Hleaf].
Qed.

Lemma sort_walk_keeps_entries (w : World) (cls : BaseSerializer) (s : SortAction)
    (stack : list string) (q q' : statement) (rels rels' : list (string * ActionTree)) :
  sort_walk w cls s stack q rels = Ok (q', rels') ->
  forall k t, dict_get rels k = Some t ->
    exists t', dict_get rels' k = Some t'
               /\ relations t' = relations t /\ filters t' = filters t.
Proof.
  revert rels. induction stack as [|current rest IH]; intros rels H k t Hk; simpl in H.
  - injection H as <- <-. eauto.
  - set (rels1 := dict_set rels current _) in H.
    assert (Hk1 : exists t1, dict_get rels1 k = Some t1
                             /\ relations t1 = relations t /\ filters t1 = filters t).
    { unfold rels1. rewrite dict_get_set.
      destruct (decide (current = k)) as [->|]; [| eauto].
      rewrite Hk. eexists. split; [reflexivity | by split]. }
    destruct Hk1 as (t1 & Hk1 & Hr1 & Hf1). destruct rest as [|next rest'].
    + inv_ok H. injection H as <- <-. eauto.
    + inv_ok H. destruct (IH _ H k t1 Hk1) as (t2 & Hk2 & Hr2 & Hf2).
      exists t2. split; [done |]. split; congruence.
Qed.

(** A dotted filter of the root specification travels down one relation
    per compiled level and arrives, as a direct filter on its last segment
    with the same operator and value, in the specification of the relation
    its path leads to; every specification on the way exists when
    [_json_query] returns. *)
Theorem dotted_filter_travels_down (w : World) (qo qo' : ActionTree)
    (cls : BaseSerializer) (q : statement) (f : FilterAction)
    (segments : list string) (leaf : string) :
  json_query_statement w qo cls = Ok (q, qo') ->
  f ∈ filters qo -> flt_field f = segments ++ [leaf] -> segments <> [] ->
  exists t, descend qo' segments = Some t /\ direct_filter f leaf ∈ filters t.
Proof.
  intros H Hf Hpath Hne.
  destruct segments as [|a rest]; [done |].
  assert (Hn : is_nested (flt_field f) = true).
  { rewrite Hpath. by destruct rest. }
  assert (Ha : first_segment (flt_field f) = a) by (by rewrite Hpath).
  pose proof H as Hrun.
  apply json_query_statement_Ok in H
    as (? & ? & ? & ? & ? & ? & ? & rels'' & ? & ? & _ & _ & _ & _ & _ & _ & _ & ->).
  apply json_query_statement_run in Hrun
    as (rels & inner & js & relfs & hidden & q1 & q2 & rels' & Hflt & Hres & _ & _
        & Hsort & _).
  simpl in Hsort.
  apply json_query_filters_Ok in Hflt as [-> _].
  destruct (pushed_relations_entry None (relations qo) (filters qo) f Hf Hn)
    as (t0 & Hget & [_ Hfilters] & Hin).
  rewrite Ha in Hget, Hfilters, Hin.
  assert (Hin0 : shifted f ∈ filters t0).
  { rewrite Hfilters. apply elem_of_app. by right. }
  apply resolve_relationships_Ok in Hres as [_ Hres].
  destruct (dict_get_Forall2
              (fun t0 ta =>
                 exists rs rel' cte,
                   _relation_select (weight qo) w t0 rs (ser_model cls) rel' = Ok (cte, ta))
              _ _ a t0 Hres Hget) as (ta & Hgeta & rs & rel' & cte & Hc).
  assert (Hkeep : exists ta', dict_get rels'' a = Some ta'
                              /\ relations ta' = relations ta /\ filters ta' = filters ta).
  { unfold json_query_sort in Hsort. destruct (sort qo) as [s|].
    - destruct (sort_field s) as [|name [|name' path]] eqn:Hp;
        try (rewrite <- Hp in Hsort; by apply (sort_walk_keeps_entries _ _ _ _ _ _ _ _ Hsort)).
      inv_ok Hsort. injection Hsort as <- <-. eauto.
    - injection Hsort as <- <-. eauto. }
  destruct Hkeep as (ta' & Hgeta' & Hrel' & Hfil').
  simpl. rewrite Hgeta'. destruct rest as [|b rest].
  - exists ta'. split; [reflexivity |]. rewrite Hfil'.
    destruct (weight qo); [discriminate |].
    apply relation_select_Ok in Hc
      as (? & ? & ? & ? & ? & ? & ? & ? & ? & ? & ? & ? & ?
          & _ & _ & _ & _ & _ & _ & _ & ->).
    simpl. by rewrite <- (shifted_direct_filter f a leaf Hpath).
  - rewrite (descend_same ta ta' (b :: rest) Hrel') by done.
    eapply (relation_filter_travels _ _ _ _ _ _ _ _ (shifted f) (b :: rest) leaf Hc Hin0);
      [by unfold shifted; simpl; rewrite Hpath | done].
Qed.

Lemma dotted_filter_travels_down_witness :
  let w := Library.world ONETOMANY in
  let f := Library.title_is ["books"; "author"; "name"] "Ann" in
  let qo := mkActionTree (Some ["name"]) [f] None [] None None in
  exists q qo' t,
    json_query_statement w qo Library.AuthorSerializer = Ok (q, qo')
    /\ f ∈ filters qo
    /\ flt_field f = ["books"; "author"] ++ ["name"]
    /\ descend qo' ["books"; "author"] = Some t
    /\ direct_filter f "name" ∈ filters t.
Proof.
  cbv zeta. eexists _, _, _. split; [vm_compute; reflexivity |].
  split; [left |]. split; [reflexivity |].
  destruct (dotted_filter_travels_down (Library.world ONETOMANY)
              (mkActionTree (Some ["name"])
                 [Library.title_is ["books"; "author"; "name"] "Ann"] None [] None None)
              _ Library.AuthorSerializer _
              (Library.title_is ["books"; "author"; "name"] "Ann")
              ["books"; "author"] "name"
              ltac:(vm_compute; reflexivity) ltac:(left) eq_refl ltac:(discriminate))
    as (t & Hd & Hin).
  vm_compute in Hd. injection Hd as <-. split; [vm_compute; reflexivity | exact Hin].
Defined.
